(** * flowgmm: invertible layers, channel primitives and the training script

    A shallow embedding of
      - [invertible/downsample.py]             (squeeze, split/merge, padChannels),
      - [flow_ssl/invertible/coupling_layers.py] (iConv2d, iConv1x1, phi, ...),
      - [experiments/train_flows/train_semisup_cons_ssclustering.py]
        (dataset selection, the cross-entropy term of [train]).

    Tensors are a shape together with their entries in row-major order, as a
    contiguous torch tensor stores them.  Python exceptions are an error
    monad.  Entries are binary64 floats where the code computes with them. *)

From Stdlib Require Import String Ascii.
From Stdlib Require Import List ZArith Lia Bool.
From Stdlib Require Import Floats.PrimFloat.
From Stdlib Require Floats.FloatOps Floats.FloatAxioms.
Import ListNotations.

Set Implicit Arguments.

(** ** Python exceptions *)

Inductive error : Type :=
| RuntimeError (msg : string)
| ValueError (msg : string)
| IndexError (msg : string)
| AttributeError (attr : string)
| NotImplementedError
| ZeroDivisionError.

Inductive result (T : Type) : Type :=
| Ok (v : T)
| Raise (e : error).

Arguments Ok {T} v.
Arguments Raise {T} e.

Definition bind {T U : Type} (r : result T) (k : T -> result U) : result U :=
  match r with
  | Ok v => k v
  | Raise e => Raise e
  end.

Notation "x <- r ;; k" := (bind r (fun x => k))
  (at level 61, r at next level, right associativity).
Notation "' p <- r ;; k" := (bind r (fun p => k))
  (at level 61, p pattern, r at next level, right associativity).

(** ** Tensors: shape and row-major entries *)

Record Tensor (A : Type) : Type := mkT { shape : list nat; data : list A }.

Arguments mkT {A} shape data.
Arguments shape {A} t.
Arguments data {A} t.

(** Number of entries of a shape ([Tensor.numel]). *)
Definition numel (sh : list nat) : nat := fold_right Nat.mul 1 sh.

(** Row-major offset of a multi-index. *)
Fixpoint ravel (sh idx : list nat) : nat :=
  match sh, idx with
  | _ :: sh', i :: idx' => i * numel sh' + ravel sh' idx'
  | _, _ => 0
  end.

(** [in_range idx sh]: one index per dimension, each below its size. *)
Fixpoint in_range (idx sh : list nat) : Prop :=
  match idx, sh with
  | [], [] => True
  | i :: idx', n :: sh' => i < n /\ in_range idx' sh'
  | _, _ => False
  end.

Section TensorCore.
Context {A : Type}.
Variable dflt : A.

(** A tensor is well formed when it holds one entry per index. *)
Definition wf (t : Tensor A) : Prop := length (data t) = numel (shape t).

Definition get (t : Tensor A) (idx : list nat) : A :=
  nth (ravel (shape t) idx) (data t) dflt.

(** Entries of the tensor of shape [sh] whose entry at [idx] is [f idx]. *)
Fixpoint tab_data (sh : list nat) (f : list nat -> A) : list A :=
  match sh with
  | [] => [f []]
  | n :: sh' => flat_map (fun i => tab_data sh' (fun idx => f (i :: idx))) (seq 0 n)
  end.

Definition tab (sh : list nat) (f : list nat -> A) : Tensor A :=
  mkT sh (tab_data sh f).
End TensorCore.

(** ** Index and shape helpers *)

(** Apply [f] to the [n]-th element of a list. *)
Fixpoint upd_nth (n : nat) (f : nat -> nat) (l : list nat) : list nat :=
  match l, n with
  | [], _ => []
  | x :: l', O => f x :: l'
  | x :: l', S n' => x :: upd_nth n' f l'
  end.

(** Position of the first occurrence of [d] in [l] ([length l] when absent). *)
Fixpoint index_of (d : nat) (l : list nat) : nat :=
  match l with
  | [] => 0
  | x :: l' => if Nat.eqb x d then 0 else S (index_of d l')
  end.

(** [perm] lists every dimension [0 .. n-1] exactly once. *)
Definition is_permutation (perm : list nat) (n : nat) : bool :=
  Nat.eqb (length perm) n && forallb (fun d => existsb (Nat.eqb d) perm) (seq 0 n).

Definition shape_eqb (s1 s2 : list nat) : bool :=
  if list_eq_dec Nat.eq_dec s1 s2 then true else false.

(** A Python dimension number, negative ones counting from the end. *)
Definition norm_dim (rank : nat) (dim : Z) : option nat :=
  let d := if (dim <? 0)%Z then (Z.of_nat rank + dim)%Z else dim in
  if ((0 <=? d) && (d <? Z.of_nat rank))%Z then Some (Z.to_nat d) else None.

(** The bound of a Python slice [:k] or [k:] on a dimension of size [n]:
    negative bounds count from the end, and the bound is clamped to [0, n]. *)
Definition slice_bound (k : Z) (n : nat) : nat :=
  if (k <? 0)%Z then Z.to_nat (Z.max 0 (Z.of_nat n + k)) else Nat.min (Z.to_nat k) n.

(** Broadcast of two shapes, aligned at their last dimensions, both given
    reversed. *)
Fixpoint broadcast_rev (r1 r2 : list nat) : option (list nat) :=
  match r1, r2 with
  | [], _ => Some r2
  | _, [] => Some r1
  | a :: r1', b :: r2' =>
      match broadcast_rev r1' r2' with
      | None => None
      | Some r =>
          if Nat.eqb a b then Some (a :: r)
          else if Nat.eqb a 1 then Some (b :: r)
          else if Nat.eqb b 1 then Some (a :: r)
          else None
      end
  end.

Definition broadcast_shapes (s1 s2 : list nat) : option (list nat) :=
  option_map (@rev nat) (broadcast_rev (rev s1) (rev s2)).

(** The index into an operand of shape [sh] for the index [idx] of the
    broadcast result: leading dimensions are dropped, a dimension of size one
    is read at 0. *)
Definition broadcast_index (sh idx : list nat) : list nat :=
  map (fun p => if Nat.eqb (fst p) 1 then 0 else snd p)
      (combine sh (skipn (length idx - length sh) idx)).

(** ** The structural torch operations the layers use *)

Section TorchStructural.
Context {A : Type}.
Variable dflt : A.

Let get := get dflt.

(** [t.size()] unpacked into four names. *)
Definition size4 (t : Tensor A) : result (nat * nat * nat * nat) :=
  match shape t with
  | [a; b; c; d] => Ok (a, b, c, d)
  | _ => Raise (ValueError "not enough or too many values to unpack (expected 4)")
  end.

(** [t.view(sizes...)]: at most one size may be [-1], which is then inferred;
    the sizes must multiply to the number of entries. *)
Definition view (t : Tensor A) (sizes : list Z) : result (Tensor A) :=
  let n := numel (shape t) in
  if existsb (fun s => (s <? -1)%Z) sizes then
    Raise (RuntimeError "invalid shape dimension")
  else
    match count_occ Z.eq_dec sizes (-1)%Z with
    | O =>
        let sh := map Z.to_nat sizes in
        if Nat.eqb (numel sh) n then Ok (mkT sh (data t))
        else Raise (RuntimeError "shape is invalid for input size")
    | 1 =>
        let known := numel (map Z.to_nat (filter (fun s => negb (s =? -1)%Z) sizes)) in
        if Nat.eqb known 0 then
          Raise (RuntimeError "the unspecified dimension size -1 is ambiguous")
        else if Nat.eqb (n mod known) 0 then
          Ok (mkT (map (fun s => if (s =? -1)%Z then n / known else Z.to_nat s) sizes)
                  (data t))
        else Raise (RuntimeError "shape is invalid for input size")
    | _ => Raise (RuntimeError "only one dimension can be inferred")
    end.

(** [t.permute(perm...)]: dimension [j] of the result is dimension
    [perm[j]] of [t]. *)
Definition permute (t : Tensor A) (perm : list nat) : result (Tensor A) :=
  if is_permutation perm (length (shape t)) then
    Ok (tab (map (fun d => nth d (shape t) 0) perm)
            (fun idx => get t (map (fun d => nth (index_of d perm) idx 0)
                                   (seq 0 (length perm)))))
  else Raise (RuntimeError "number of dims don't match in permute").

(** [len] entries of dimension [dim], from [start] on. *)
Definition narrow (t : Tensor A) (dim start len : nat) : Tensor A :=
  tab (upd_nth dim (fun _ => len) (shape t))
      (fun idx => get t (upd_nth dim (fun i => start + i) idx)).

(** [t[:, :k, :, :]] *)
Definition channels_upto (t : Tensor A) (k : Z) : result (Tensor A) :=
  if length (shape t) <? 4 then Raise (IndexError "too many indices for tensor")
  else Ok (narrow t 1 0 (slice_bound k (nth 1 (shape t) 0))).

(** [t[:, k:, :, :]] *)
Definition channels_from (t : Tensor A) (k : Z) : result (Tensor A) :=
  if length (shape t) <? 4 then Raise (IndexError "too many indices for tensor")
  else
    let c := nth 1 (shape t) 0 in
    Ok (narrow t 1 (slice_bound k c) (c - slice_bound k c)).

(** [torch.cat((t1, t2), dim)]: the operands agree on every other
    dimension.  (The legacy exemption for one-dimensional empty operands is
    not modelled; no caller passes one.) *)
Definition cat (t1 t2 : Tensor A) (dim : nat) : result (Tensor A) :=
  let s1 := shape t1 in
  let s2 := shape t2 in
  if negb (dim <? length s1) then
    Raise (IndexError "dimension out of range")
  else if negb (shape_eqb (upd_nth dim (fun _ => 0) s1) (upd_nth dim (fun _ => 0) s2)) then
    Raise (RuntimeError "sizes of tensors must match except in the cat dimension")
  else
    let n1 := nth dim s1 0 in
    Ok (tab (upd_nth dim (fun n => n + nth dim s2 0) s1)
            (fun idx =>
               if nth dim idx 0 <? n1 then get t1 idx
               else get t2 (upd_nth dim (fun i => i - n1) idx))).

(** Constant padding of the last two dimensions with [zero]:
    [F.pad(t, (left, right, top, bottom))] and [nn.ZeroPad2d].  The pair
    (left, right) pads the last dimension, (top, bottom) the one before it;
    a negative amount crops. *)
Definition pad2d (zero : A) (t : Tensor A) (left right top bottom : Z)
  : result (Tensor A) :=
  let r := length (shape t) in
  if r <? 2 then Raise (RuntimeError "padding length too large")
  else
    let h := nth (r - 2) (shape t) 0 in
    let w := nth (r - 1) (shape t) 0 in
    let h' := (Z.of_nat h + top + bottom)%Z in
    let w' := (Z.of_nat w + left + right)%Z in
    if ((h' <? 0) || (w' <? 0))%Z then
      Raise (RuntimeError "padding resulted in a negative output size")
    else
      Ok (tab (upd_nth (r - 2) (fun _ => Z.to_nat h')
                 (upd_nth (r - 1) (fun _ => Z.to_nat w') (shape t)))
              (fun idx =>
                 let i := (Z.of_nat (nth (r - 2) idx 0%nat) - top)%Z in
                 let j := (Z.of_nat (nth (r - 1) idx 0%nat) - left)%Z in
                 if ((0 <=? i) && (i <? Z.of_nat h) && (0 <=? j) && (j <? Z.of_nat w))%Z
                 then get t (upd_nth (r - 2) (fun _ => Z.to_nat i)
                               (upd_nth (r - 1) (fun _ => Z.to_nat j) idx))
                 else zero)).

(** [torch.roll(t, shift, dim)]: the entry at position [i] of [dim] moves
    to position [(i + shift) mod n]. *)
Definition roll (t : Tensor A) (shift dim : Z) : result (Tensor A) :=
  match norm_dim (length (shape t)) dim with
  | None => Raise (IndexError "dimension out of range")
  | Some d =>
      let n := Z.of_nat (nth d (shape t) 0%nat) in
      Ok (tab (shape t)
              (fun idx =>
                 get t (upd_nth d (fun i => Z.to_nat ((Z.of_nat i - shift) mod n)) idx)))
  end.

(** [t[..., i]] *)
Definition select_last (t : Tensor A) (i : nat) : result (Tensor A) :=
  match rev (shape t) with
  | [] => Raise (IndexError "too many indices for tensor of dimension 0")
  | m :: _ =>
      if i <? m then
        Ok (tab (removelast (shape t)) (fun idx => get t (idx ++ [i])))
      else Raise (IndexError "index out of range")
  end.

(** [torch.stack([a, b], dim=len(a.shape))] *)
Definition stack_last (a b : Tensor A) : result (Tensor A) :=
  if shape_eqb (shape a) (shape b) then
    Ok (tab (shape a ++ [2])
            (fun idx =>
               if Nat.eqb (last idx 0) 0 then get a (removelast idx)
               else get b (removelast idx)))
  else Raise (RuntimeError "stack expects each tensor to be equal size").

(** [a, b = torch.chunk(t, 2, dim)]: two pieces, the first of size
    [ceil(n/2)]; a dimension of size one gives a single piece, and the
    unpacking fails. *)
Definition chunk2 (t : Tensor A) (dim : nat) : result (Tensor A * Tensor A) :=
  if negb (dim <? length (shape t)) then
    Raise (IndexError "dimension out of range")
  else
    let n := nth dim (shape t) 0 in
    let s := (n + 1) / 2 in
    if Nat.eqb n 1 then Raise (ValueError "not enough values to unpack (expected 2, got 1)")
    else Ok (narrow t dim 0 s, narrow t dim s (n - s)).

(** [bias[None, :, None, None]] *)
Definition index_none_colon_none_none (t : Tensor A) : result (Tensor A) :=
  match shape t with
  | [] => Raise (IndexError "too many indices for tensor of dimension 0")
  | n :: rest => Ok (mkT (1 :: n :: 1 :: 1 :: rest) (data t))
  end.

(** An elementwise binary operation with broadcasting. *)
Definition pointwise2 (f : A -> A -> A) (t1 t2 : Tensor A) : result (Tensor A) :=
  match broadcast_shapes (shape t1) (shape t2) with
  | None => Raise (RuntimeError "the size of the tensors must match")
  | Some sh =>
      Ok (tab sh (fun idx => f (get t1 (broadcast_index (shape t1) idx))
                               (get t2 (broadcast_index (shape t2) idx))))
  end.

(** [scalar.expand(bs)] of a zero-dimensional tensor. *)
Definition expand0 (v : A) (bs : nat) : Tensor A := mkT [bs] (repeat v bs).
End TorchStructural.

(** Python's [a // b] on integers: floor division, [ZeroDivisionError] on a
    zero divisor. *)
Definition floordiv (a b : Z) : result Z :=
  if (b =? 0)%Z then Raise ZeroDivisionError else Ok (a / b)%Z.

(** * invertible/downsample.py *)

Module downsample.
Section Downsample.
Context {A : Type}.
(** The zero entry: what [nn.ZeroPad2d] writes. *)
Variable zero : A.

(** [unsqueeze]: [:, C*r^2, H, W] -> [:, C, H*r, W*r] *)
Definition unsqueeze (input : Tensor A) (upscale_factor : Z) : result (Tensor A) :=
  '(batch_size, in_channels, in_height, in_width) <- size4 input ;;
  out_channels <- floordiv (Z.of_nat in_channels) (upscale_factor ^ 2) ;;
  let out_height := (Z.of_nat in_height * upscale_factor)%Z in
  let out_width := (Z.of_nat in_width * upscale_factor)%Z in
  input_view <- view input [Z.of_nat batch_size; out_channels; upscale_factor;
                            upscale_factor; Z.of_nat in_height; Z.of_nat in_width] ;;
  output <- permute zero input_view [0; 1; 4; 2; 5; 3] ;;
  view output [Z.of_nat batch_size; out_channels; out_height; out_width].

(** [squeeze]: [:, C, H*r, W*r] -> [:, C*r^2, H, W] *)
Definition squeeze (input : Tensor A) (downscale_factor : Z) : result (Tensor A) :=
  '(batch_size, in_channels, in_height, in_width) <- size4 input ;;
  let out_channels := (Z.of_nat in_channels * downscale_factor ^ 2)%Z in
  out_height <- floordiv (Z.of_nat in_height) downscale_factor ;;
  out_width <- floordiv (Z.of_nat in_width) downscale_factor ;;
  input_view <- view input [Z.of_nat batch_size; Z.of_nat in_channels; out_height;
                            downscale_factor; out_width; downscale_factor] ;;
  output <- permute zero input_view [0; 1; 3; 5; 2; 4] ;;
  view output [Z.of_nat batch_size; out_channels; out_height; out_width].

(** ** class SqueezeLayer *)

Record SqueezeLayer : Type := { downscale_factor : Z }.

(** [forward(self, inp)]: [x, z = inp; return squeeze(x, r), z].  The second
    component may be any Python object. *)
Definition SqueezeLayer_forward {Zt : Type} (self : SqueezeLayer)
           (inp : Tensor A * Zt) : result (Tensor A * Zt) :=
  let '(x, z) := inp in
  y <- squeeze x (downscale_factor self) ;;
  Ok (y, z).

(** [inverse(self, out)]: [y, z_out = out; return unsqueeze(y, r), z_out]. *)
Definition SqueezeLayer_inverse {Zt : Type} (self : SqueezeLayer)
           (out : Tensor A * Zt) : result (Tensor A * Zt) :=
  let '(y, z_out) := out in
  x <- unsqueeze y (downscale_factor self) ;;
  Ok (x, z_out).

(** [logdet(self, y)]: [raise NotImplementedError]. *)
Definition SqueezeLayer_logdet {Yt : Type} (self : SqueezeLayer) (y : Yt)
  : result (Tensor A) :=
  Raise NotImplementedError.

(** ** class padChannels *)

Record padChannels : Type := { pad_size : Z }.

(** [self.pad = nn.ZeroPad2d((0, 0, 0, pad_size))] *)
Definition padChannels_pad (self : padChannels) (x : Tensor A) : result (Tensor A) :=
  pad2d zero zero x 0 0 0 (pad_size self).

Definition padChannels_forward (self : padChannels) (x : Tensor A)
  : result (Tensor A) :=
  x1 <- permute zero x [0; 2; 1; 3] ;;
  x2 <- padChannels_pad self x1 ;;
  permute zero x2 [0; 2; 1; 3].

(** [x[:, :x.size(1) - self.pad_size, :, :]] *)
Definition padChannels_inverse (self : padChannels) (x : Tensor A)
  : result (Tensor A) :=
  if length (shape x) <? 2 then Raise (IndexError "dimension out of range")
  else channels_upto zero x (Z.of_nat (nth 1 (shape x) 0) - pad_size self).

(** ** split and merge *)

Definition split (x : Tensor A) (k : Z) : result (Tensor A * Tensor A) :=
  x1 <- channels_upto zero x k ;;
  x2 <- channels_from zero x k ;;
  Ok (x1, x2).

Definition merge (x1 x2 : Tensor A) : result (Tensor A) :=
  cat zero x1 x2 1.
End Downsample.
End downsample.

(** * Float tensors and the numerical torch operations *)

Local Open Scope float_scope.

Definition ftensor : Type := Tensor float.

Definition fget : ftensor -> list nat -> float := get 0.

Definition ftab : list nat -> (list nat -> float) -> ftensor := @tab float.

(** Left-to-right sum. *)
Definition fsum (l : list float) : float := fold_left PrimFloat.add l 0.

(** A Python integer as a float. *)
Fixpoint float_of_pos (p : positive) : float :=
  match p with
  | xH => 1
  | xO q => 2 * float_of_pos q
  | xI q => 2 * float_of_pos q + 1
  end.

Definition float_of_Z (z : Z) : float :=
  match z with
  | Z0 => 0
  | Zpos p => float_of_pos p
  | Zneg p => - float_of_pos p
  end.

Definition float_of_nat (n : nat) : float := float_of_Z (Z.of_nat n).

Definition tmap (f : float -> float) (t : ftensor) : ftensor :=
  mkT (shape t) (map f (data t)).

Definition tsub : ftensor -> ftensor -> result ftensor := pointwise2 0 PrimFloat.sub.
Definition tadd : ftensor -> ftensor -> result ftensor := pointwise2 0 PrimFloat.add.
Definition tmul : ftensor -> ftensor -> result ftensor := pointwise2 0 PrimFloat.mul.
Definition tdiv : ftensor -> ftensor -> result ftensor := pointwise2 0 PrimFloat.div.

(** [torch.eye(n)] *)
Definition eye (n : nat) : ftensor :=
  ftab [n; n] (fun idx => if Nat.eqb (nth 0 idx 0%nat) (nth 1 idx 0%nat) then 1 else 0).

(** [torch.diagonal(t, dim1=-2, dim2=-1)] *)
Definition diagonal (t : ftensor) : result ftensor :=
  let r := length (shape t) in
  if (r <? 2)%nat then Raise (IndexError "dimension out of range")
  else
    let batch := firstn (r - 2) (shape t) in
    let n := Nat.min (nth (r - 2) (shape t) 0%nat) (nth (r - 1) (shape t) 0%nat) in
    Ok (ftab (batch ++ [n])
             (fun idx => fget t (removelast idx ++ [last idx 0%nat; last idx 0%nat]))).

(** [torch.matmul(a, b)] (also written [a @ b]) for operands of at least two
    dimensions: the leading dimensions are broadcast, the last two are
    multiplied as matrices.  (One-dimensional operands are not modelled; the
    layers multiply permuted tensors of four dimensions.) *)
Definition matmul (a b : ftensor) : result ftensor :=
  let ra := length (shape a) in
  let rb := length (shape b) in
  if ((ra <? 2) || (rb <? 2))%nat then
    Raise (RuntimeError "matmul: operand of fewer than two dimensions")
  else
    let ba := firstn (ra - 2) (shape a) in
    let bb := firstn (rb - 2) (shape b) in
    let n := nth (ra - 2) (shape a) 0%nat in
    let m := nth (ra - 1) (shape a) 0%nat in
    let m' := nth (rb - 2) (shape b) 0%nat in
    let p := nth (rb - 1) (shape b) 0%nat in
    if negb (Nat.eqb m m') then Raise (RuntimeError "size mismatch in matmul")
    else
      match broadcast_shapes ba bb with
      | None => Raise (RuntimeError "the size of the tensors must match")
      | Some bc =>
          Ok (ftab (bc ++ [n; p])
                (fun idx =>
                   let bi := firstn (length bc) idx in
                   let i := nth (length bc) idx 0%nat in
                   let j := nth (S (length bc)) idx 0%nat in
                   fsum (map (fun k =>
                                fget a (broadcast_index ba bi ++ [i; k])
                                * fget b (broadcast_index bb bi ++ [k; j]))
                             (seq 0 m))))
      end.

(** [F.conv2d(x, weight, bias)] with the default stride, padding, dilation
    and groups: a cross-correlation,
    [out[n,o,i,j] = sum_{c,a,b} x[n,c,i+a,j+b] * weight[o,c,a,b] + bias[o]];
    [bias] may be [None]. *)
Definition conv2d (x weight : ftensor) (bias : option ftensor) : result ftensor :=
  match shape x, shape weight with
  | [n; cin; h; w], [cout; cin'; kh; kw] =>
      if negb (Nat.eqb cin cin') then
        Raise (RuntimeError "input channels do not match the weight")
      else if negb (match bias with
                    | Some b => shape_eqb (shape b) [cout]
                    | None => true
                    end) then
        Raise (RuntimeError "bias does not match the output channels")
      else if ((h <? kh) || (w <? kw))%nat then
        Raise (RuntimeError "kernel size can't be greater than actual input size")
      else
        Ok (ftab [n; cout; h - kh + 1; w - kw + 1]%nat
              (fun idx =>
                 let b := nth 0 idx 0%nat in
                 let o := nth 1 idx 0%nat in
                 let i := nth 2 idx 0%nat in
                 let j := nth 3 idx 0%nat in
                 let acc :=
                   fsum (flat_map (fun c =>
                           flat_map (fun a =>
                             map (fun d => fget x [b; c; i + a; j + d]%nat
                                           * fget weight [o; c; a; d])
                                 (seq 0 kw))
                             (seq 0 kh))
                           (seq 0 cin)) in
                 match bias with
                 | Some bv => acc + fget bv [o]
                 | None => acc
                 end))
  | _, _ => Raise (RuntimeError "expected 4-dimensional input and weight")
  end.

(** [t[:, :, 0, 0]] of a 4-dimensional tensor. *)
Definition index_colon_colon_0_0 (t : ftensor) : result ftensor :=
  match shape t with
  | [a; b; c; d] =>
      if (Nat.eqb c 0 || Nat.eqb d 0)%nat then Raise (IndexError "index 0 is out of bounds")
      else Ok (ftab [a; b] (fun idx => fget t (idx ++ [0; 0]%nat)))
  | _ => Raise (IndexError "too many indices for tensor")
  end.

(** [t[..., 1] *= -1], on a fresh tensor. *)
Definition negate_last_index_1 (t : ftensor) : result ftensor :=
  if (last (shape t) 0 <? 2)%nat then Raise (IndexError "index 1 is out of bounds")
  else
    Ok (ftab (shape t)
          (fun idx => if Nat.eqb (last idx 0%nat) 1 then fget t idx * (-1) else fget t idx)).

(** Modelled from the spec: [pad_circular_nd] of [flow_ssl/invertible/
    normalizations.py], which is not among the sources.  Section 4.2:
    "circular-pad input by 1 pixel on each spatial edge".  [pad_circular_nd x 1
    [2,3]] has two more rows and columns than [x], and its entry at row [i],
    column [j] is the entry of [x] at row [(i-1) mod H], column [(j-1) mod W]. *)
Definition pad_circular_nd (x : ftensor) : result ftensor :=
  match shape x with
  | [n; c; h; w] =>
      Ok (ftab [n; c; h + 2; w + 2]%nat
            (fun idx =>
               let i := Z.of_nat (nth 2 idx 0%nat) in
               let j := Z.of_nat (nth 3 idx 0%nat) in
               fget x [nth 0 idx 0%nat; nth 1 idx 0%nat;
                       Z.to_nat ((i - 1) mod Z.of_nat h);
                       Z.to_nat ((j - 1) mod Z.of_nat w)]))
  | _ => Raise (IndexError "dimension out of range")
  end.

Local Close Scope float_scope.

(** * flow_ssl/invertible/coupling_layers.py *)

Module coupling_layers.

(** ** phi, phi_vec, phi_inv_vec *)

(** [phi(C)]: [A = C[...,0]], [B = C[...,1]],
    [D = cat([cat([A, B], dim=1), cat([-B, A], dim=1)], dim=0)]. *)
Definition phi (C : ftensor) : result ftensor :=
  A <- select_last 0%float C 0 ;;
  B <- select_last 0%float C 1 ;;
  top <- cat 0%float A B 1 ;;
  bottom <- cat 0%float (tmap PrimFloat.opp B) A 1 ;;
  cat 0%float top bottom 0.

(** [phi_vec(v)]: [cat([v[...,0], v[...,1]], dim=1)]. *)
Definition phi_vec (v : ftensor) : result ftensor :=
  a <- select_last 0%float v 0 ;;
  b <- select_last 0%float v 1 ;;
  cat 0%float a b 1.

(** [phi_inv_vec(v)]: [a, b = chunk(v, 2, dim=1)], [stack([a, b],
    dim=len(v.shape))]. *)
Definition phi_inv_vec (v : ftensor) : result ftensor :=
  '(a, b) <- chunk2 0%float v 1 ;;
  stack_last 0%float a b.

(** [phi_inv(D)]: [AB, _ = chunk(D, 2, dim=0)], [A, B = chunk(AB, 2, dim=1)],
    [stack([A, B], dim=len(D.shape))]. *)
Definition phi_inv (D : ftensor) : result ftensor :=
  '(AB, _) <- chunk2 0%float D 0 ;;
  '(A, B) <- chunk2 0%float AB 1 ;;
  stack_last 0%float A B.

Section Layers.
(** The numerical routines of torch that the layers call.  They are
    parameters of the model: the layers are defined for any
    implementation of them. *)

(** [torch.rfft(t, 2, onesided=False, normalized=False)]: the two-dimensional
    discrete Fourier transform over the last two dimensions; the result has
    one more dimension, of size two, holding real and imaginary parts. *)
Variable rfft : ftensor -> result ftensor.
(** [torch.irfft(t, 2, onesided=False, normalized=False)] *)
Variable irfft : ftensor -> result ftensor.
(** [torch.inverse(t)], over the last two dimensions. *)
Variable inverse : ftensor -> result ftensor.
(** [torch.cholesky(t)], over the last two dimensions. *)
Variable cholesky : ftensor -> result ftensor.
(** [torch.slogdet(m)[1]]: the logarithm of the absolute determinant. *)
Variable slogdet_1 : ftensor -> result float.
(** The logarithm of one entry, as [Tensor.log] applies it. *)
Variable flog : float -> float.
(** The wrapped module [self.conv] applied to an input (the [conv2d] of
    [flow_ssl/conv_parts.py], not among the sources): used by
    [iConv2d.forward] only when [circ] is false. *)
Variable conv_call : ftensor -> ftensor -> ftensor -> result ftensor.

(** ** inverse_fft_conv3x3_pytorch *)

(** Lines 143-144: the transform of the input, realified, one vector per
    frequency bin. *)
Definition phi_fft_input_of (x : ftensor) : result ftensor :=
  fft_input <- rfft x ;;
  pv <- phi_vec fft_input ;;
  permute 0%float pv [2; 3; 1; 0].

(** Lines 147-150: the kernel padded for an input of width [w], with the
    entries of index 1 on its last axis negated, transformed and realified. *)
Definition phi_fft_weight_of (weight : ftensor) (w : nat) : result ftensor :=
  let lo := ((Z.of_nat w - 3) / 2)%Z in
  let hi := ((Z.of_nat w - 3) / 2 + (Z.of_nat w - 3) mod 2)%Z in
  padded_weight <- pad2d 0%float 0%float weight lo hi lo hi ;;
  padded_weight <- negate_last_index_1 padded_weight ;;
  fft_weight <- rfft padded_weight ;;
  phi fft_weight.

(** Lines 154-155: the product with the inverted matrices, transformed
    back. *)
Definition conv_inverse_from (inverse_phi_fft_weight phi_fft_input : ftensor)
  : result ftensor :=
  mm <- matmul inverse_phi_fft_weight phi_fft_input ;;
  pm <- permute 0%float mm [3; 2; 0; 1] ;;
  product <- phi_inv_vec pm ;;
  irfft product.

(** Lines 141-155: everything up to [conv_inverse]. *)
Definition conv_inverse_of (x weight : ftensor) : result ftensor :=
  '(bs, c, h, w) <- size4 x ;;
  phi_fft_input <- phi_fft_input_of x ;;
  phi_fft_weight <- phi_fft_weight_of weight w ;;
  pw <- permute 0%float phi_fft_weight [2; 3; 0; 1] ;;
  inverse_phi_fft_weight <- inverse pw ;;
  conv_inverse_from inverse_phi_fft_weight phi_fft_input.

(** Line 156: [torch.roll(torch.roll(conv_inverse, -((h-1)//2), -2),
    -((w-1)//2), -1)]. *)
Definition unshift (h w : nat) (conv_inverse : ftensor) : result ftensor :=
  r <- roll 0%float conv_inverse (- ((Z.of_nat h - 1) / 2))%Z (-2)%Z ;;
  roll 0%float r (- ((Z.of_nat w - 1) / 2))%Z (-1)%Z.

Definition inverse_fft_conv3x3_pytorch (x weight : ftensor) : result ftensor :=
  '(bs, c, h, w) <- size4 x ;;
  conv_inverse <- conv_inverse_of x weight ;;
  unshift h w conv_inverse.

(** ** class iConv2d *)

(** [conv_weight], [conv_bias]: the parameters of [self.conv];
    [_shape]: the input shape cached by [forward], absent before the first
    call. *)
Record iConv2d : Type := {
  conv_weight : ftensor;
  conv_bias : ftensor;
  _circ : bool;
  _shape : option (list nat)
}.

Definition iConv2d_set_shape (self : iConv2d) (s : list nat) : iConv2d :=
  {| conv_weight := conv_weight self; conv_bias := conv_bias self;
     _circ := _circ self; _shape := Some s |}.

(** [forward]: the assignment to [self._shape] takes effect whether or not
    the convolution then raises. *)
Definition iConv2d_forward (self : iConv2d) (x : ftensor) : iConv2d * result ftensor :=
  let self' := iConv2d_set_shape self (shape x) in
  (self',
   if _circ self then
     padded_x <- pad_circular_nd x ;;
     conv2d padded_x (conv_weight self) (Some (conv_bias self))
   else conv_call x (conv_weight self) (conv_bias self)).

(** [y - self.conv.bias[None,:,None,None]] *)
Definition sub_bias (y bias : ftensor) : result ftensor :=
  b <- index_none_colon_none_none bias ;;
  tsub y b.

Definition iConv2d_inverse (self : iConv2d) (y : ftensor) : result ftensor :=
  debiased <- sub_bias y (conv_bias self) ;;
  inverse_fft_conv3x3_pytorch debiased (conv_weight self).

(** [bs, c, h, w = self._shape] *)
Definition unpack_shape (attr : string) (s : option (list nat))
  : result (nat * nat * nat * nat) :=
  match s with
  | None => Raise (AttributeError attr)
  | Some [bs; c; h; w] => Ok (bs, c, h, w)
  | Some _ => Raise (ValueError "not enough or too many values to unpack (expected 4)")
  end.

(** [F.pad(self.conv.weight, (0, h-3, 0, w-3))] *)
Definition logdet_padded_weight (weight : ftensor) (h w : nat) : result ftensor :=
  pad2d 0%float 0%float weight 0 (Z.of_nat h - 3) 0 (Z.of_nat w - 3).

(** The regularizer of line 44. *)
Definition chol_eps : float := 0x1.4f8b588e368f1p-17%float.

Definition iConv2d_logdet (self : iConv2d) : result ftensor :=
  '(bs, c, h, w) <- unpack_shape "_shape" (_shape self) ;;
  padded_weight <- logdet_padded_weight (conv_weight self) h w ;;
  w_fft <- rfft padded_weight ;;
  pw <- phi w_fft ;;
  D <- permute 0%float pw [2; 3; 0; 1] ;;
  Dt <- permute 0%float D [0; 1; 3; 2] ;;
  lhs <- matmul D Dt ;;
  reg <- tadd lhs (tmap (fun e => chol_eps * e)%float (eye (last (shape lhs) 0))) ;;
  chol_output <- cholesky reg ;;
  eigs <- diagonal chol_output ;;
  Ok (expand0 (fsum (map flog (data eigs)) / 2)%float bs).

(** ** class iConv1x1 *)

Record iConv1x1 : Type := {
  weight : ftensor;
  bias : ftensor;
  _input_shape : option (list nat)
}.

Definition iConv1x1_forward (self : iConv1x1) (x : ftensor) : iConv1x1 * result ftensor :=
  ({| weight := weight self; bias := bias self; _input_shape := Some (shape x) |},
   conv2d x (weight self) (Some (bias self))).

(** [(torch.slogdet(self.weight[:,:,0,0])[1]*h*w).expand(bs)] *)
Definition iConv1x1_logdet (self : iConv1x1) : result ftensor :=
  '(bs, c, h, w) <- unpack_shape "_input_shape" (_input_shape self) ;;
  m <- index_colon_colon_0_0 (weight self) ;;
  l <- slogdet_1 m ;;
  Ok (expand0 (l * float_of_nat h * float_of_nat w)%float bs).

(** [inverse]: the weight is inverted in double precision and cast back;
    the model has one float format, so the casts are the identity. *)
Definition iConv1x1_inverse (self : iConv1x1) (y : ftensor) : result ftensor :=
  '(bs, c, h, w) <- unpack_shape "_input_shape" (_input_shape self) ;;
  m <- index_colon_colon_0_0 (weight self) ;;
  mi <- inverse m ;;
  inv_weight <- view mi [Z.of_nat c; Z.of_nat c; 1; 1]%Z ;;
  debiased_y <- sub_bias y (bias self) ;;
  conv2d debiased_y inv_weight None.
(** ** class iCoordInjection *)

(** [self.mul_net] and [self.bias_net] applied to the empty input: two
    [nn.Sequential] of the [conv2d] modules of [flow_ssl/conv_parts.py] (not
    among the sources), which read the pixel coordinates only. *)
Variable mul_net : ftensor -> result ftensor.
Variable bias_net : ftensor -> result ftensor.
(** The exponential of one entry, as [torch.exp] applies it. *)
Variable fexp : float -> float.

(** [_log_mul]: set by [forward]. *)
Record iCoordInjection : Type := { _log_mul : option ftensor }.

(** [torch.zeros(bs, 0, h, w)] *)
Definition empty_input (bs h w : nat) : ftensor := mkT [bs; 0; h; w] [].

(** [forward]: [self._log_mul] is assigned once both nets have returned. *)
Definition iCoordInjection_forward (self : iCoordInjection) (x : ftensor)
  : iCoordInjection * result ftensor :=
  match size4 x with
  | Raise e => (self, Raise e)
  | Ok (bs, c, h, w) =>
      match mul_net (empty_input bs h w) with
      | Raise e => (self, Raise e)
      | Ok log_mul =>
          let mul := tmap fexp log_mul in
          match bias_net (empty_input bs h w) with
          | Raise e => (self, Raise e)
          | Ok bias =>
              ({| _log_mul := Some log_mul |},
               xm <- tmul x mul ;; tadd xm bias)
          end
      end
  end.

Definition iCoordInjection_inverse (self : iCoordInjection) (y : ftensor)
  : result ftensor :=
  '(bs, c, h, w) <- size4 y ;;
  log_mul <- mul_net (empty_input bs h w) ;;
  let mul := tmap fexp log_mul in
  bias <- bias_net (empty_input bs h w) ;;
  d <- tsub y bias ;;
  tdiv d mul.
End Layers.
End coupling_layers.

(** * Reference implementations of the numerical routines

    Used to run the layers on small inputs.  The Fourier transforms are the
    defining sums; their twiddle factors are exact (0, 1 and -1) for the
    lengths 1, 2 and 4, and other lengths are refused. *)

Module reference.

Local Open Scope float_scope.

(** [exp(-2 pi i q / 4)] as (real part, imaginary part). *)
Definition twiddle4 (q : nat) : float * float :=
  match (q mod 4)%nat with
  | 0%nat => (1, 0)
  | 1%nat => (0, -1)
  | 2%nat => (-1, 0)
  | _ => (0, 1)
  end.

Definition exact_length (n : nat) : bool :=
  (Nat.eqb n 1 || Nat.eqb n 2 || Nat.eqb n 4)%nat.

(** The quarter turns of [exp(-2 pi i (k1 n1 / h + k2 n2 / w))]. *)
Definition phase (h w k1 k2 n1 n2 : nat) : nat :=
  (((k1 * n1) mod h) * (4 / h) + ((k2 * n2) mod w) * (4 / w))%nat.

(** All positions [(n1, n2)] of an [h] by [w] grid, row by row. *)
Definition grid (h w : nat) : list (nat * nat) :=
  flat_map (fun n1 => map (fun n2 => (n1, n2)) (seq 0 w)) (seq 0 h).

(** The full two-dimensional transform of a real tensor. *)
Definition rfft (t : ftensor) : result ftensor :=
  let r := length (shape t) in
  if (r <? 2)%nat then Raise (RuntimeError "rfft: signal_ndim exceeds the dimensions")
  else
    let h := nth (r - 2) (shape t) 0%nat in
    let w := nth (r - 1) (shape t) 0%nat in
    if negb (exact_length h && exact_length w) then
      Raise (RuntimeError "reference rfft: length other than 1, 2 or 4")
    else
      Ok (ftab (shape t ++ [2%nat])
            (fun idx =>
               let pre := firstn (r - 2) idx in
               let k1 := nth (r - 2) idx 0%nat in
               let k2 := nth (r - 1) idx 0%nat in
               let part := nth r idx 0%nat in
               fsum (map (fun n =>
                            let tw := twiddle4 (phase h w k1 k2 (fst n) (snd n)) in
                            fget t (pre ++ [fst n; snd n])
                            * (if Nat.eqb part 0 then fst tw else snd tw))
                         (grid h w)))).

(** The inverse transform, real part, divided by the number of points. *)
Definition irfft (t : ftensor) : result ftensor :=
  let r := length (shape t) in
  if (r <? 3)%nat then Raise (RuntimeError "irfft: signal_ndim exceeds the dimensions")
  else if negb (Nat.eqb (last (shape t) 0%nat) 2) then
    Raise (RuntimeError "irfft: the last dimension must hold real and imaginary parts")
  else
    let h := nth (r - 3) (shape t) 0%nat in
    let w := nth (r - 2) (shape t) 0%nat in
    if negb (exact_length h && exact_length w) then
      Raise (RuntimeError "reference irfft: length other than 1, 2 or 4")
    else
      Ok (ftab (removelast (shape t))
            (fun idx =>
               let pre := firstn (r - 3) idx in
               let n1 := nth (r - 3) idx 0%nat in
               let n2 := nth (r - 2) idx 0%nat in
               fsum (map (fun k =>
                            let tw := twiddle4 (phase h w (fst k) (snd k) n1 n2) in
                            fget t (pre ++ [fst k; snd k; 0%nat]) * fst tw
                            + fget t (pre ++ [fst k; snd k; 1%nat]) * snd tw)
                         (grid h w))
               / float_of_nat (h * w))).

(** Consecutive pieces of length [k]. *)
Fixpoint chunks {A : Type} (fuel k : nat) (l : list A) : list (list A) :=
  match fuel, l with
  | O, _ => []
  | _, [] => []
  | S fuel', _ => firstn k l :: chunks fuel' k (skipn k l)
  end.

(** Index of the first row from [i] on whose entry in column [col] is not
    zero. *)
Fixpoint find_pivot (col i : nat) (rows : list (list float)) : option nat :=
  match rows with
  | [] => None
  | r :: rows' =>
      if PrimFloat.eqb (nth col r 0) 0 then find_pivot col (S i) rows' else Some i
  end.

Definition swap_rows (i j : nat) (m : list (list float)) : list (list float) :=
  map (fun k => nth (if Nat.eqb k i then j else if Nat.eqb k j then i else k) m [])
      (seq 0 (length m)).

(** One column of Gauss-Jordan elimination on an augmented matrix. *)
Definition eliminate (col : nat) (m : list (list float)) : option (list (list float)) :=
  match find_pivot col col (skipn col m) with
  | None => None
  | Some p =>
      let m1 := swap_rows col p m in
      let prow := nth col m1 [] in
      let pivot := nth col prow 0 in
      let prow' := map (fun e => e / pivot) prow in
      Some (map (fun k =>
                   if Nat.eqb k col then prow'
                   else
                     let r := nth k m1 [] in
                     let c := nth col r 0 in
                     map (fun ab => fst ab - c * snd ab) (combine r prow'))
                (seq 0 (length m1)))
  end.

Fixpoint eliminate_all (cols : list nat) (m : list (list float))
  : option (list (list float)) :=
  match cols with
  | [] => Some m
  | c :: cols' =>
      match eliminate c m with
      | None => None
      | Some m' => eliminate_all cols' m'
      end
  end.

(** The inverse of one [n] by [n] matrix, given as its rows. *)
Definition invert_matrix (n : nat) (rows : list (list float)) : option (list float) :=
  let augmented :=
    map (fun i => nth i rows [] ++ map (fun j => if Nat.eqb i j then 1 else 0) (seq 0 n))
        (seq 0 n) in
  option_map (fun m => flat_map (skipn n) m) (eliminate_all (seq 0 n) augmented).

Fixpoint sequence_opt {A : Type} (l : list (option A)) : option (list A) :=
  match l with
  | [] => Some []
  | None :: _ => None
  | Some a :: l' => option_map (cons a) (sequence_opt l')
  end.

(** [torch.inverse] over the last two dimensions. *)
Definition inverse (t : ftensor) : result ftensor :=
  let r := length (shape t) in
  if (r <? 2)%nat then Raise (RuntimeError "inverse: expected at least two dimensions")
  else
    let n := nth (r - 2) (shape t) 0%nat in
    if negb (Nat.eqb n (nth (r - 1) (shape t) 0%nat)) then
      Raise (RuntimeError "inverse: expected square matrices")
    else
      let mats := chunks (length (data t)) (n * n) (data t) in
      match sequence_opt (map (fun m => invert_matrix n (chunks (n * n) n m)) mats) with
      | None => Raise (RuntimeError "inverse: singular matrix")
      | Some inv => Ok (mkT (shape t) (concat inv))
      end.

(** The exponential by its power series, cut after 25 terms. *)
Fixpoint exp_series (terms : nat) (k : float) (term v : float) : float :=
  match terms with
  | O => 0
  | S terms' => term + exp_series terms' (k + 1) (term * v / k) v
  end.

Definition exp (v : float) : float := exp_series 25 1 1 v.

(** The determinant, by expansion along the first row. *)
Fixpoint det (fuel : nat) (m : list (list float)) : float :=
  match fuel, m with
  | S fuel', r0 :: rows =>
      fsum (map (fun j =>
                   (if Nat.even j then 1 else -1) * nth j r0 0
                   * det fuel' (map (fun r => firstn j r ++ skipn (S j) r) rows))
                (seq 0 (length r0)))
  | _, _ => 1
  end.

(** [torch.slogdet(m)[1]] where the logarithm is exact: a determinant of
    absolute value one has logarithm zero; other matrices are refused. *)
Definition slogdet_1 (m : ftensor) : result float :=
  match shape m with
  | [n; n'] =>
      if negb (Nat.eqb n n') then Raise (RuntimeError "slogdet: expected a square matrix")
      else if PrimFloat.eqb (PrimFloat.abs (det n (chunks n n (data m)))) 1 then Ok 0
      else Raise (RuntimeError "reference slogdet: |det| other than 1")
  | _ => Raise (RuntimeError "reference slogdet: expected one matrix")
  end.

End reference.

(** * Small inputs *)

Module examples.

Definition floats (l : list Z) : list float := map float_of_Z l.

(** A batch of two samples with three channels of one row and two columns. *)
Definition sample_x : Tensor nat := mkT [2; 3; 1; 2] (seq 1 12).

(** One 4 by 4 image with the entries 1 .. 16. *)
Definition image_4x4 : ftensor := mkT [1; 1; 4; 4] (map float_of_nat (seq 1 16)).

(** One 2 by 4 image with the entries 1 .. 8. *)
Definition image_2x4 : ftensor := mkT [1; 1; 2; 4] (map float_of_nat (seq 1 8)).

(** The 3 by 3 kernel that is 1 at its centre: the circular convolution with
    it is the identity. *)
Definition centre_kernel : ftensor :=
  mkT [1; 1; 3; 3] (floats [0; 0; 0; 0; 1; 0; 0; 0; 0]%Z).

Definition no_bias : ftensor := mkT [1] (floats [0%Z]).

(** A freshly built [iConv2d(1, 1, 3)] holding [centre_kernel]. *)
Definition centre_layer : coupling_layers.iConv2d :=
  {| coupling_layers.conv_weight := centre_kernel;
     coupling_layers.conv_bias := no_bias;
     coupling_layers._circ := true;
     coupling_layers._shape := None |}.

(** A kernel whose middle column is zero. *)
Definition side_kernel : ftensor :=
  mkT [1; 1; 3; 3] (floats [1; 0; 0; 2; 0; 1; 0; 0; 4]%Z).

Definition side_layer : coupling_layers.iConv2d :=
  {| coupling_layers.conv_weight := side_kernel;
     coupling_layers.conv_bias := mkT [1] (floats [3%Z]);
     coupling_layers._circ := true;
     coupling_layers._shape := None |}.

(** An [iConv1x1(1)] with weight 1 and bias 0, before any forward pass. *)
Definition unit_conv1x1 : coupling_layers.iConv1x1 :=
  {| coupling_layers.weight := mkT [1; 1; 1; 1] (floats [1%Z]);
     coupling_layers.bias := no_bias;
     coupling_layers._input_shape := None |}.

(** An [iConv1x1(1)] with weight 2 and bias 3. *)
Definition doubling_conv1x1 : coupling_layers.iConv1x1 :=
  {| coupling_layers.weight := mkT [1; 1; 1; 1] (floats [2%Z]);
     coupling_layers.bias := mkT [1] (floats [3%Z]);
     coupling_layers._input_shape := None |}.

(** A coordinate net whose parameters are all zero: one channel of zeros
    for every pixel of the empty input it is given. *)
Definition zero_net (empty : ftensor) : result ftensor :=
  match shape empty with
  | [bs; _; h; w] => Ok (mkT [bs; 1; h; w] (repeat 0%float (bs * h * w)))
  | _ => Raise (RuntimeError "expected a 4-dimensional input")
  end.

(** A batch of three 2 by 5 images of one channel. *)
Definition batch_3x1x2x5 : ftensor := mkT [3; 1; 2; 5] (map float_of_nat (seq 1 30)).

End examples.

(** * experiments/train_flows/train_semisup_cons_ssclustering.py *)

Module train_semisup.

Local Open Scope string_scope.

(** ** Dataset selection (lines 177-208) *)

(** [str.lower] on the ASCII letters.  Bytes outside ASCII are kept: no
    string with such a byte lower-cases to one of the three dataset names
    compared below, so the branch taken is the one Python takes. *)
Definition lower_ascii (c : ascii) : ascii :=
  let n := nat_of_ascii c in
  if ((65 <=? n) && (n <=? 90))%nat then ascii_of_nat (n + 32) else c.

Fixpoint lower (s : string) : string :=
  match s with
  | EmptyString => EmptyString
  | String c s' => String (lower_ascii c) (lower s')
  end.

Definition newline : string := String (ascii_of_nat 10) EmptyString.

(** The command-line arguments the start of the script reads. *)
Record Args : Type := {
  dataset : string;
  ckptdir : string;
  logdir : string;
  argv : list string
}.

(** What the selection binds ([transform_train] is a torchvision object and
    is left out). *)
Record DatasetConfig : Type := {
  img_shape : nat * nat * nat;
  unlabeled_classes : list nat;
  labeled_classes : list nat
}.

(** Lines 191-208. *)
Definition select_dataset (name : string) : result DatasetConfig :=
  if String.eqb (lower name) "mnist" then
    Ok {| img_shape := (1, 28, 28);
          unlabeled_classes := [1; 3; 5; 7; 9];
          labeled_classes := [0; 2; 4; 6; 8] |}
  else if (String.eqb (lower name) "cifar10" || String.eqb (lower name) "svhn")%bool then
    Raise (ValueError "Only MNIST is implemented")
  else
    Raise (ValueError ("Unsupported dataset " ++ name)).

(** The effects of the script on the outside, in the order they happen. *)
Inductive event : Type :=
| Makedirs (path : string)
| WriteFile (dir file contents : string)
| OpenSummaryWriter (log_dir : string)
| QueryCuda
| Later (what : string).

(** Lines 179-186: what the script does before it looks at the dataset
    name. *)
Definition before_selection (args : Args) : list event :=
  [Makedirs (ckptdir args);
   WriteFile (ckptdir args) "command.sh" (String.concat " " (argv args) ++ newline);
   OpenSummaryWriter (logdir args);
   QueryCuda].

Section Script.
(** Lines 210-371: the data loaders, the model, the optimizer and the
    training loop.  Their effects are [Later] events. *)
Variable rest : Args -> DatasetConfig -> list event * result unit.

(** The script up to the end of the dataset selection, then [rest]. *)
Definition script (args : Args) : list event * result unit :=
  match select_dataset (dataset args) with
  | Raise e => (before_selection args, Raise e)
  | Ok cfg => let '(evs, r) := rest args cfg in ((before_selection args ++ evs)%list, r)
  end.
End Script.

(** ** The cross-entropy term of [train] (lines 58, 71-76) *)

Section CrossEntropy.
(** [flow_ssl.data.NO_LABEL], not among the sources. *)
Variable NO_LABEL : Z.
(** [loss_fn.prior.class_logits] on one row of latents
    ([SSLGaussMixture] is not among the sources). *)
Variable class_logits : list float -> list float.
(** The loss of one sample, [-log_softmax(logits)[target]]. *)
Variable nll : list float -> Z -> float.

(** [labeled_mask = (y != NO_LABEL)] *)
Definition labeled_mask (y : list Z) : list bool :=
  map (fun l => negb (l =? NO_LABEL)%Z) y.



End CrossEntropy.

(** ** linear_rampup (lines 32-36) *)




(** ** The labels of the unlabeled classes (lines 227-229) *)

(** [labels[labels == cls] = value] *)
Definition assign_where (labels : list Z) (cls value : Z) : list Z :=
  map (fun l => if (l =? cls)%Z then value else l) labels.

(** [for cls in unlabeled_classes: labels[labels == cls] = NO_LABEL] *)
Definition hide_classes (NO_LABEL : Z) (classes : list nat) (labels : list Z) : list Z :=
  fold_left (fun ls cls => assign_where ls (Z.of_nat cls) NO_LABEL) classes labels.

(** ** The loss of one step of [train] (lines 78-87) *)


(** ** Small inputs *)

Definition args_cifar10 : Args :=
  {| dataset := "cifar10"; ckptdir := "ckpt"; logdir := "log";
     argv := ["train.py"; "--dataset"; "cifar10"] |}.

Definition args_imagenet : Args :=
  {| dataset := "ImageNet"; ckptdir := "ckpt"; logdir := "log";
     argv := ["train.py"; "--dataset"; "ImageNet"] |}.

(** An outline of the rest of the script. *)
Definition rest_outline (_ : Args) (_ : DatasetConfig) : list event * result unit :=
  ([Later "make_ssl_data_loaders"; Later "build model"; Later "train"], Ok tt).


End train_semisup.

(** * Proofs *)

Import downsample coupling_layers examples train_semisup.

(** ** The tensor core *)

Section TensorCoreFacts.
Context {A : Type}.
Variable dflt : A.

Lemma tab_data_length (sh : list nat) (f : list nat -> A) :
  length (tab_data sh f) = numel sh.
Proof.
  revert f. induction sh as [|n sh IH]; intro f; simpl; [reflexivity|].
  generalize 0 as a.
  induction n as [|n IHn]; intro a; simpl; [reflexivity|].
  rewrite length_app, IH, IHn. reflexivity.
Qed.

Lemma wf_tab (sh : list nat) (f : list nat -> A) : wf (tab sh f).
Proof. unfold wf, tab; simpl. apply tab_data_length. Qed.

Lemma ravel_lt (sh idx : list nat) : in_range idx sh -> ravel sh idx < numel sh.
Proof.
  revert idx. induction sh as [|n sh IH]; intros [|i idx] H; simpl in *; try tauto; try lia.
  destruct H as [Hi H]. specialize (IH _ H). nia.
Qed.

(** Entry [i * p + r] of a concatenation of blocks of length [p] is entry
    [r] of block [i]. *)
Lemma nth_flat_map_blocks (g : nat -> list A) (p n a i r : nat) :
  (forall k, length (g k) = p) -> i < n -> r < p ->
  nth (i * p + r) (flat_map g (seq a n)) dflt = nth r (g (a + i)) dflt.
Proof.
  intros Hg. revert a i. induction n as [|n IH]; intros a i Hi Hr; [lia|].
  simpl. destruct i as [|i].
  - simpl. rewrite app_nth1 by (rewrite Hg; lia). now rewrite Nat.add_0_r.
  - rewrite app_nth2 by (rewrite Hg; simpl; lia).
    rewrite Hg. replace (S i * p + r - p) with (i * p + r) by (simpl; lia).
    rewrite IH by lia. f_equal. f_equal. lia.
Qed.

Lemma nth_tab_data (sh idx : list nat) (f : list nat -> A) :
  in_range idx sh -> nth (ravel sh idx) (tab_data sh f) dflt = f idx.
Proof.
  revert idx f. induction sh as [|n sh IH]; intros [|i idx] f H; simpl in H;
    try contradiction; [reflexivity|].
  destruct H as [Hi H]. simpl.
  rewrite nth_flat_map_blocks; auto using ravel_lt.
  - simpl. now rewrite IH.
  - intro k. apply tab_data_length.
Qed.

Lemma get_tab (sh idx : list nat) (f : list nat -> A) :
  in_range idx sh -> get dflt (tab sh f) idx = f idx.
Proof. intro H. unfold get, tab; simpl. now apply nth_tab_data. Qed.

Lemma tab_data_ext (sh : list nat) (f g : list nat -> A) :
  (forall idx, in_range idx sh -> f idx = g idx) -> tab_data sh f = tab_data sh g.
Proof.
  revert f g. induction sh as [|n sh IH]; intros f g H; simpl.
  - f_equal. now apply H.
  - assert (Hs : forall i, In i (seq 0 n) -> i < n) by (intros i Hi; apply in_seq in Hi; lia).
    revert Hs. generalize (seq 0 n) as l.
    induction l as [|i l IHl]; intro Hs; simpl; [reflexivity|].
    f_equal.
    + apply IH. intros idx Hidx. apply H. simpl. split; [apply Hs; now left | assumption].
    + apply IHl. intros k Hk. apply Hs. now right.
Qed.

(** A well-formed tensor is the table of its own entries. *)
Lemma tab_data_get (sh : list nat) (l : list A) :
  length l = numel sh ->
  tab_data sh (fun idx => nth (ravel sh idx) l dflt) = l.
Proof.
  revert l. induction sh as [|n sh IH]; intros l Hl; simpl in *.
  - destruct l as [|x [|y l]]; simpl in *; try discriminate. reflexivity.
  - revert l Hl. induction n as [|n IHn]; intros l Hl.
    + destruct l; simpl in *; [reflexivity | discriminate].
    + rewrite <- cons_seq. simpl.
      assert (Hf : length (firstn (numel sh) l) = numel sh)
        by (rewrite length_firstn; simpl in Hl; lia).
      transitivity (firstn (numel sh) l ++ skipn (numel sh) l);
        [|apply firstn_skipn].
      f_equal.
      * rewrite <- (IH (firstn (numel sh) l) Hf) at 1.
        apply tab_data_ext. intros idx Hidx. simpl.
        rewrite <- (firstn_skipn (numel sh) l) at 1.
        rewrite app_nth1; [reflexivity|]. rewrite Hf. now apply ravel_lt.
      * rewrite <- seq_shift, flat_map_concat_map, map_map, <- flat_map_concat_map.
        rewrite <- (IHn (skipn (numel sh) l)) at 1
          by (rewrite length_skipn; simpl in Hl; lia).
        apply flat_map_ext. intro i. apply tab_data_ext. intros idx Hidx.
        rewrite <- (firstn_skipn (numel sh) l) at 1.
        rewrite app_nth2 by (rewrite Hf; simpl; lia).
        rewrite Hf. f_equal. simpl. lia.
Qed.

Lemma tab_get (t : Tensor A) : wf t -> tab (shape t) (get dflt t) = t.
Proof.
  intro H. destruct t as [sh l]. unfold tab, get, wf in *; simpl in *.
  f_equal. now apply tab_data_get.
Qed.

(** Two tables over the same shape are equal when their entries agree. *)
Lemma tab_ext (sh : list nat) (f g : list nat -> A) :
  (forall idx, in_range idx sh -> f idx = g idx) -> tab sh f = tab sh g.
Proof. intro H. unfold tab. f_equal. now apply tab_data_ext. Qed.

(** Extensionality against a well-formed tensor. *)
Lemma tab_eq_tensor (t : Tensor A) (f : list nat -> A) :
  wf t -> (forall idx, in_range idx (shape t) -> f idx = get dflt t idx) ->
  tab (shape t) f = t.
Proof.
  intros Hwf H. rewrite <- (tab_get Hwf) at 2. now apply tab_ext.
Qed.
End TensorCoreFacts.

Lemma slice_bound_le (k : Z) (n : nat) : slice_bound k n <= n.
Proof. unfold slice_bound. destruct (k <? 0)%Z eqn:E; lia. Qed.

Lemma slice_bound_in (k n : nat) : k <= n -> slice_bound (Z.of_nat k) n = k.
Proof.
  intro H. unfold slice_bound.
  destruct (Z.of_nat k <? 0)%Z eqn:E; [lia|]. rewrite Nat2Z.id. lia.
Qed.

Lemma shape_eqb_refl (s : list nat) : shape_eqb s s = true.
Proof. unfold shape_eqb. destruct (list_eq_dec Nat.eq_dec s s); congruence. Qed.

Lemma shape_eqb_eq (s1 s2 : list nat) : shape_eqb s1 s2 = true -> s1 = s2.
Proof. unfold shape_eqb. destruct (list_eq_dec Nat.eq_dec s1 s2); congruence. Qed.

(** ** split and merge *)

Section SplitMerge.
Context {A : Type}.
Variable zero : A.

(** Cutting the channels at [s] and concatenating the two parts gives the
    tensor back. *)
Lemma cat_narrow (x : Tensor A) (b c s : nat) (rest : list nat) :
  wf x -> shape x = b :: c :: rest -> s <= c ->
  cat zero (narrow zero x 1 0 s) (narrow zero x 1 s (c - s)) 1 = Ok x.
Proof.
  intros Hwf Hsh Hs. unfold cat, narrow. simpl shape. rewrite Hsh. simpl.
  rewrite shape_eqb_refl. simpl. f_equal.
  replace (s + (c - s)) with c by lia.
  rewrite <- Hsh. apply (tab_eq_tensor zero); [assumption|].
  rewrite Hsh. intros [|i [|j idx]] Hidx; simpl in Hidx; try tauto.
  destruct Hidx as (Hi & Hj & Hidx). simpl.
  destruct (j <? s) eqn:E.
  - apply Nat.ltb_lt in E. rewrite get_tab by (simpl; tauto). reflexivity.
  - apply Nat.ltb_ge in E. rewrite get_tab by (simpl; repeat split; auto; lia).
    simpl. do 3 f_equal. lia.
Qed.
End SplitMerge.

Section DownsampleFacts.
Context {A : Type}.
Variable zero : A.

Lemma split_narrow (x : Tensor A) (k : Z) :
  4 <= length (shape x) ->
  split zero x k =
  Ok (narrow zero x 1 0 (slice_bound k (nth 1 (shape x) 0)),
      narrow zero x 1 (slice_bound k (nth 1 (shape x) 0))
             (nth 1 (shape x) 0 - slice_bound k (nth 1 (shape x) 0))).
Proof.
  intro H. unfold split, channels_upto, channels_from.
  destruct (length (shape x) <? 4) eqn:E; [apply Nat.ltb_lt in E; lia|].
  reflexivity.
Qed.

(** [merge] undoes [split], whatever the bound [k]. *)
Lemma merge_split_any (x : Tensor A) (k : Z) :
  wf x -> 4 <= length (shape x) ->
  ('(x1, x2) <- split zero x k ;; merge zero x1 x2) = Ok x.
Proof.
  intros Hwf Hr. rewrite split_narrow by assumption. simpl.
  destruct (shape x) as [|b [|c rest]] eqn:Hsh; simpl in Hr; try lia.
  unfold merge. simpl. apply (cat_narrow zero Hwf Hsh). apply slice_bound_le.
Qed.

(** C7. For every tensor [x] of shape (bs, C, H, W) and every [k] with
    [0 <= k <= C] (the ends [k = 0] and [k = C] included), [split(x, k)]
    returns a first part with [k] channels and a second with the [C - k]
    remaining ones, and [merge] of the two parts is [x] itself. *)
Theorem merge_split (x : Tensor A) (bs C H W k : nat) :
  wf x -> shape x = [bs; C; H; W] -> k <= C ->
  exists x1 x2,
    split zero x (Z.of_nat k) = Ok (x1, x2) /\
    shape x1 = [bs; k; H; W] /\
    shape x2 = [bs; C - k; H; W] /\
    merge zero x1 x2 = Ok x.
Proof.
  intros Hwf Hsh Hk.
  assert (Hr : 4 <= length (shape x)) by (rewrite Hsh; simpl; lia).
  pose proof (merge_split_any (Z.of_nat k) Hwf Hr) as Hm.
  rewrite split_narrow in * by assumption.
  rewrite Hsh in *. simpl nth in *. rewrite slice_bound_in in * by assumption.
  eexists; eexists. split; [reflexivity|].
  unfold narrow at 1 2. simpl shape. rewrite Hsh. simpl.
  repeat split. exact Hm.
Qed.
End DownsampleFacts.

Lemma merge_split_witness :
  exists x1 x2,
    split 0 sample_x 0%Z = Ok (x1, x2) /\
    shape x1 = [2; 0; 1; 2] /\
    shape x2 = [2; 3; 1; 2] /\
    merge 0 x1 x2 = Ok sample_x.
Proof.
  apply (@merge_split nat 0 sample_x 2 3 1 2 0); [reflexivity | reflexivity | lia].
Defined.

Section PadChannelsFacts.
Context {A : Type}.
Variable zero : A.

(** What [forward] returns on a 4-dimensional input, for a pad size that is
    not negative: the table with [p] more channels that reads [x] on the
    first [C] channels and is zero on the others. *)
Lemma padChannels_forward_eq (self : padChannels) (x : Tensor A) (bs C H W : nat) :
  shape x = [bs; C; H; W] -> (0 <= pad_size self)%Z ->
  padChannels_forward zero self x =
  Ok (tab [bs; C + Z.to_nat (pad_size self); H; W]
          (fun idx =>
             if nth 1 idx 0 <? C then get zero x idx else zero)).
Proof.
  intros Hsh Hp. unfold padChannels_forward, permute. rewrite Hsh. simpl.
  unfold padChannels_pad, pad2d. simpl.
  destruct ((Z.of_nat C + 0 + pad_size self <? 0)%Z || (Z.of_nat W + 0 + 0 <? 0)%Z)%bool eqn:E.
  { apply orb_true_iff in E. destruct E as [E|E]; apply Z.ltb_lt in E; lia. }
  simpl. f_equal.
  replace (Z.to_nat (Z.of_nat C + 0 + pad_size self)) with (C + Z.to_nat (pad_size self)) by lia.
  replace (Z.to_nat (Z.of_nat W + 0 + 0)) with W by lia.
  apply tab_ext. intros [|i [|j [|k [|l [|? ?]]]]] Hidx; simpl in Hidx; try tauto.
  destruct Hidx as (Hi & Hj & Hk & Hl & _). simpl.
  rewrite get_tab by (simpl; tauto). simpl.
  rewrite !Z.sub_0_r.
  destruct (j <? C) eqn:Ej.
  - apply Nat.ltb_lt in Ej.
    replace ((0 <=? Z.of_nat j)%Z && (Z.of_nat j <? Z.of_nat C)%Z
             && (0 <=? Z.of_nat l)%Z && (Z.of_nat l <? Z.of_nat W)%Z)%bool with true.
    2:{ symmetry. rewrite !andb_true_iff. repeat split;
        try apply Z.leb_le; try apply Z.ltb_lt; lia. }
    rewrite !Nat2Z.id. rewrite get_tab by (simpl; tauto). reflexivity.
  - apply Nat.ltb_ge in Ej.
    replace (Z.of_nat j <? Z.of_nat C)%Z with false
      by (symmetry; apply Z.ltb_ge; lia).
    now rewrite andb_false_r.
Qed.

(** C8. For every tensor [x] of shape (bs, C, H, W) and every pad size
    [p >= 0], [forward] returns a tensor with [C + p] channels whose first
    [C] channels are those of [x] and whose last [p] channels are zero, and
    [inverse] applied to it returns [x] itself. *)
Theorem padChannels_inverse_forward (self : padChannels) (x : Tensor A)
        (bs C H W : nat) :
  wf x -> shape x = [bs; C; H; W] -> (0 <= pad_size self)%Z ->
  exists y,
    padChannels_forward zero self x = Ok y /\
    shape y = [bs; C + Z.to_nat (pad_size self); H; W] /\
    (forall b c h w, b < bs -> c < C + Z.to_nat (pad_size self) -> h < H -> w < W ->
       get zero y [b; c; h; w] = if c <? C then get zero x [b; c; h; w] else zero) /\
    padChannels_inverse zero self y = Ok x.
Proof.
  intros Hwf Hsh Hp. rewrite (padChannels_forward_eq self x Hsh Hp).
  eexists. split; [reflexivity|]. split; [reflexivity|]. split.
  - intros b c h w Hb Hc Hh Hw. rewrite get_tab by (simpl; tauto). reflexivity.
  - unfold padChannels_inverse, channels_upto. simpl.
    replace (Z.of_nat (C + Z.to_nat (pad_size self)) - pad_size self)%Z
      with (Z.of_nat C) by lia.
    rewrite slice_bound_in by lia. f_equal.
    unfold narrow. simpl. rewrite <- Hsh.
    apply (tab_eq_tensor zero); [assumption|]. rewrite Hsh.
    intros [|i [|j [|k [|l [|? ?]]]]] Hidx; simpl in Hidx; try tauto.
    destruct Hidx as (Hi & Hj & Hk & Hl & _). simpl.
    rewrite get_tab by (simpl; repeat split; auto; lia). simpl.
    apply Nat.ltb_lt in Hj. now rewrite Hj.
Qed.
End PadChannelsFacts.

Lemma padChannels_inverse_forward_witness :
  exists y,
    padChannels_forward 0 {| pad_size := 2 |} sample_x = Ok y /\
    shape y = [2; 3 + Z.to_nat 2; 1; 2] /\
    (forall b c h w, b < 2 -> c < 3 + Z.to_nat 2 -> h < 1 -> w < 2 ->
       get 0 y [b; c; h; w] = if c <? 3 then get 0 sample_x [b; c; h; w] else 0) /\
    padChannels_inverse 0 {| pad_size := 2 |} y = Ok sample_x.
Proof.
  apply (@padChannels_inverse_forward nat 0 {| pad_size := 2 |} sample_x 2 3 1 2);
    [reflexivity | reflexivity | simpl; lia].
Defined.

Section ViewFacts.
Context {A : Type}.

Lemma view_nonneg (t : Tensor A) (sizes : list Z) :
  Forall (fun s => (0 <= s)%Z) sizes ->
  numel (map Z.to_nat sizes) = numel (shape t) ->
  view t sizes = Ok (mkT (map Z.to_nat sizes) (data t)).
Proof.
  intros Hpos. unfold view.
  assert (E1 : existsb (fun s => (s <? -1)%Z) sizes = false).
  { induction Hpos as [|s l Hs Hl IH]; cbn [existsb]; [reflexivity|].
    rewrite IH, orb_false_r. apply Z.ltb_ge. lia. }
  assert (E2 : count_occ Z.eq_dec sizes (-1)%Z = 0).
  { apply count_occ_not_In. intro Hin. rewrite Forall_forall in Hpos.
    specialize (Hpos _ Hin). lia. }
  intro Hn. rewrite E1, E2, Hn, Nat.eqb_refl. reflexivity.
Qed.
End ViewFacts.

Section SqueezeFacts.
Context {A : Type}.
Variable zero : A.

Lemma floordiv_exact (q r : nat) :
  0 < r -> floordiv (Z.of_nat (q * r)) (Z.of_nat r) = Ok (Z.of_nat q).
Proof.
  intro Hr. unfold floordiv.
  destruct (Z.of_nat r =? 0)%Z eqn:E; [apply Z.eqb_eq in E; lia|].
  f_equal. rewrite Nat2Z.inj_mul. apply Z.div_mul. lia.
Qed.

(** What [squeeze] returns on a tensor whose height and width are
    multiples of the factor. *)
Lemma squeeze_eq (x : Tensor A) (b C oh ow r : nat) :
  0 < r -> shape x = [b; C; oh * r; ow * r] ->
  squeeze zero x (Z.of_nat r) =
  Ok (mkT [b; C * (r * r); oh; ow]
        (tab_data [b; C; r; r; oh; ow]
           (fun idx =>
              get zero (mkT [b; C; oh; r; ow; r] (data x))
                  [nth 0 idx 0; nth 1 idx 0; nth 4 idx 0;
                   nth 2 idx 0; nth 5 idx 0; nth 3 idx 0]))).
Proof.
  intros Hr Hs. unfold squeeze, size4. rewrite Hs.
  cbn [bind]. rewrite !floordiv_exact by assumption. cbn [bind].
  rewrite view_nonneg.
  2:{ repeat constructor; lia. }
  2:{ rewrite Hs. cbn [map numel fold_right]. rewrite !Nat2Z.id. lia. }
  cbn [bind map]. rewrite !Nat2Z.id.
  unfold permute. cbn [shape length is_permutation].
  replace (is_permutation [0; 1; 3; 5; 2; 4] 6) with true by reflexivity.
  cbn [bind]. rewrite view_nonneg.
  2:{ repeat constructor; lia. }
  2:{ cbn [shape tab map numel fold_right nth]. rewrite !Nat2Z.id.
      replace (Z.to_nat (Z.of_nat C * Z.of_nat r ^ 2)) with (C * (r * r)) by nia.
      lia. }
  cbn [map shape data tab nth]. rewrite !Nat2Z.id.
  replace (Z.to_nat (Z.of_nat C * Z.of_nat r ^ 2)) with (C * (r * r)) by nia.
  reflexivity.
Qed.

Lemma unsqueeze_eq (y : Tensor A) (b C oh ow r : nat) :
  0 < r -> shape y = [b; C * (r * r); oh; ow] ->
  unsqueeze zero y (Z.of_nat r) =
  Ok (mkT [b; C; oh * r; ow * r]
        (tab_data [b; C; oh; r; ow; r]
           (fun idx =>
              get zero (mkT [b; C; r; r; oh; ow] (data y))
                  [nth 0 idx 0; nth 1 idx 0; nth 3 idx 0;
                   nth 5 idx 0; nth 2 idx 0; nth 4 idx 0]))).
Proof.
  intros Hr Hs. unfold unsqueeze, size4. rewrite Hs.
  cbn [bind]. rewrite Z.pow_2_r, <- Nat2Z.inj_mul.
  rewrite floordiv_exact by nia. cbn [bind].
  rewrite view_nonneg.
  2:{ repeat constructor; lia. }
  2:{ rewrite Hs. cbn [map numel fold_right]. rewrite !Nat2Z.id. lia. }
  cbn [bind map]. rewrite !Nat2Z.id.
  unfold permute. cbn [shape length is_permutation].
  replace (is_permutation [0; 1; 4; 2; 5; 3] 6) with true by reflexivity.
  cbn [bind]. rewrite view_nonneg.
  2:{ repeat constructor; lia. }
  2:{ cbn [shape tab map numel fold_right nth]. rewrite !Nat2Z.id.
      replace (Z.to_nat (Z.of_nat oh * Z.of_nat r)) with (oh * r) by nia.
      replace (Z.to_nat (Z.of_nat ow * Z.of_nat r)) with (ow * r) by nia.
      lia. }
  cbn [map shape data tab nth]. rewrite !Nat2Z.id.
  replace (Z.to_nat (Z.of_nat oh * Z.of_nat r)) with (oh * r) by nia.
  replace (Z.to_nat (Z.of_nat ow * Z.of_nat r)) with (ow * r) by nia.
  reflexivity.
Qed.

(** [squeeze] followed by [unsqueeze] with the same factor [r > 0] is the
    identity on every tensor whose height and width are multiples of [r];
    the intermediate tensor has [C * r^2] channels, height [H / r] and
    width [W / r]. *)
Theorem unsqueeze_squeeze (x : Tensor A) (b C oh ow r : nat) :
  wf x -> 0 < r -> shape x = [b; C; oh * r; ow * r] ->
  exists y,
    squeeze zero x (Z.of_nat r) = Ok y /\
    shape y = [b; C * (r * r); oh; ow] /\
    unsqueeze zero y (Z.of_nat r) = Ok x.
Proof.
  intros Hwf Hr Hs. rewrite (@squeeze_eq x b C oh ow r Hr Hs).
  eexists. split; [reflexivity|]. split; [reflexivity|].
  erewrite (@unsqueeze_eq _ b C oh ow r Hr) by reflexivity. f_equal.
  destruct x as [sh d]. cbn [shape data] in *. subst sh. f_equal.
  transitivity (tab_data [b; C; oh; r; ow; r]
                  (fun idx => nth (ravel [b; C; oh; r; ow; r] idx) d zero)).
  - apply tab_data_ext.
    intros [|i0 [|i1 [|i2 [|i3 [|i4 [|i5 [|? ?]]]]]]] Hidx; simpl in Hidx; try tauto.
    destruct Hidx as (H0 & H1 & H2 & H3 & H4 & H5 & _).
    cbn [nth].
    unfold get. cbn [shape data].
    rewrite nth_tab_data by (simpl; tauto).
    reflexivity.
  - apply tab_data_get. unfold wf in Hwf. cbn [shape data numel fold_right] in *. lia.
Qed.
End SqueezeFacts.

Lemma unsqueeze_squeeze_witness :
  exists y,
    squeeze 0 (mkT [1; 1; 4; 4] (seq 0 16)) (Z.of_nat 2) = Ok y /\
    shape y = [1; 1 * (2 * 2); 2; 2] /\
    unsqueeze 0 y (Z.of_nat 2) = Ok (mkT [1; 1; 4; 4] (seq 0 16)).
Proof.
  apply (@unsqueeze_squeeze nat 0 (mkT [1; 1; 4; 4] (seq 0 16)) 1 1 2 2 2);
    [reflexivity | lia | reflexivity].
Defined.

(** ** SqueezeLayer *)

Example squeeze_4x4 :
  squeeze 0 (mkT [1; 1; 4; 4] (seq 0 16)) 2 =
  Ok (mkT [1; 4; 2; 2] [0; 2; 8; 10; 1; 3; 9; 11; 4; 6; 12; 14; 5; 7; 13; 15]).
Proof. reflexivity. Qed.

Example unsqueeze_squeeze_4x4 :
  (y <- squeeze 0 (mkT [1; 1; 4; 4] (seq 0 16)) 2 ;; unsqueeze 0 y 2) =
  Ok (mkT [1; 1; 4; 4] (seq 0 16)).
Proof. reflexivity. Qed.

Section SqueezeLayerFacts.
Context {A Zt : Type}.
Variable zero : A.

(** C10. [forward] takes the pair (x, z) to (squeeze(x), z) and [inverse]
    takes (y, z) to (unsqueeze(y), z): each succeeds exactly when the
    reshape of the first component does, and returns the second component
    as it was given, of whatever type it is. *)
Theorem SqueezeLayer_second_component_unchanged
        (self : SqueezeLayer) (x : Tensor A) (z : Zt) :
  (forall y, squeeze zero x (downscale_factor self) = Ok y ->
             SqueezeLayer_forward zero self (x, z) = Ok (y, z)) /\
  (forall y z', SqueezeLayer_forward zero self (x, z) = Ok (y, z') ->
                squeeze zero x (downscale_factor self) = Ok y /\ z' = z) /\
  (forall y, unsqueeze zero x (downscale_factor self) = Ok y ->
             SqueezeLayer_inverse zero self (x, z) = Ok (y, z)) /\
  (forall y z', SqueezeLayer_inverse zero self (x, z) = Ok (y, z') ->
                unsqueeze zero x (downscale_factor self) = Ok y /\ z' = z).
Proof.
  unfold SqueezeLayer_forward, SqueezeLayer_inverse.
  split; [|split; [|split]].
  - intros y H. now rewrite H.
  - intros y z' H.
    destruct (squeeze zero x (downscale_factor self)) as [v|e]; simpl in H;
      [inversion H; auto | discriminate].
  - intros y H. now rewrite H.
  - intros y z' H.
    destruct (unsqueeze zero x (downscale_factor self)) as [v|e]; simpl in H;
      [inversion H; auto | discriminate].
Qed.

(** C2, as the code has it: [logdet] raises [NotImplementedError] for
    every layer and every argument; it returns no value. *)
Theorem SqueezeLayer_logdet_raises (self : SqueezeLayer) (y : Zt) :
  SqueezeLayer_logdet (A := A) self y = Raise NotImplementedError.
Proof. reflexivity. Qed.
End SqueezeLayerFacts.

Lemma SqueezeLayer_second_component_unchanged_witness :
  SqueezeLayer_forward 0 {| downscale_factor := 2 |}
    (mkT [1; 1; 4; 4] (seq 0 16), "context"%string)
  = Ok (mkT [1; 4; 2; 2] [0; 2; 8; 10; 1; 3; 9; 11; 4; 6; 12; 14; 5; 7; 13; 15],
        "context"%string).
Proof.
  apply (proj1 (@SqueezeLayer_second_component_unchanged nat string 0
                  {| downscale_factor := 2 |} (mkT [1; 1; 4; 4] (seq 0 16))
                  "context"%string)).
  reflexivity.
Defined.

(** C2 fails for a batch of one: [logdet] does not return the zero
    log-determinant (nor anything else). *)
Lemma SqueezeLayer_logdet_returns_no_zero :
  SqueezeLayer_logdet {| downscale_factor := 2 |} (mkT [1; 4; 2; 2] (repeat 0%float 16))
  <> Ok (expand0 0%float 1).
Proof. discriminate. Qed.

(** ** The inverse of the 3x3 circular convolution *)

Lemma bind_ok {T U : Type} (r : result T) (k : T -> result U) (u : U) :
  bind r k = Ok u -> exists v, r = Ok v /\ k v = Ok u.
Proof. destruct r as [v|e]; simpl; intro H; [eauto | discriminate]. Qed.

(** Broadcasting against a dimension of size one keeps the other size. *)
Lemma broadcast_rev_ones (a b d n : nat) :
  broadcast_rev [a; b; n; d] [1; 1; n; 1] = Some [a; b; n; d].
Proof.
  simpl. rewrite Nat.eqb_refl.
  destruct (Nat.eqb d 1) eqn:Ed; [apply Nat.eqb_eq in Ed; subst|];
    (destruct (Nat.eqb b 1) eqn:Eb; [apply Nat.eqb_eq in Eb; subst|]);
    (destruct (Nat.eqb a 1) eqn:Ea; [apply Nat.eqb_eq in Ea; subst|]); reflexivity.
Qed.

Lemma sub_bias_eq (y bias : ftensor) (bs c h w : nat) :
  shape y = [bs; c; h; w] -> shape bias = [c] ->
  sub_bias y bias =
  Ok (ftab [bs; c; h; w]
        (fun idx => PrimFloat.sub (fget y idx) (fget bias [nth 1 idx 0]))).
Proof.
  intros Hy Hb. unfold sub_bias, index_none_colon_none_none. rewrite Hb. simpl.
  unfold tsub, pointwise2, broadcast_shapes. simpl shape. rewrite Hy. simpl rev.
  rewrite broadcast_rev_ones. simpl. apply f_equal. unfold ftab. apply tab_ext.
  intros [|n [|k [|i [|j [|? ?]]]]] Hidx; simpl in Hidx; try tauto.
  destruct Hidx as (Hn & Hk & Hi & Hj & _).
  unfold broadcast_index. simpl.
  assert (E : forall m v, v < m -> (if Nat.eqb m 1 then 0 else v) = v).
  { intros m v Hv. destruct (Nat.eqb m 1) eqn:Em; [apply Nat.eqb_eq in Em; lia | reflexivity]. }
  rewrite (E bs n), (E c k), (E h i), (E w j) by assumption.
  unfold fget, get. simpl. rewrite Hb. reflexivity.
Qed.

(** What the two rolls of line 156 do to a 4-dimensional tensor. *)
Lemma unshift_spec (h w : nat) (ci : ftensor) (b' c' h' w' : nat) :
  shape ci = [b'; c'; h'; w'] ->
  exists x,
    unshift h w ci = Ok x /\
    shape x = [b'; c'; h'; w'] /\
    forall n k i j, n < b' -> k < c' -> i < h' -> j < w' ->
      fget x [n; k; i; j] =
      fget ci [n; k;
               Z.to_nat ((Z.of_nat i + (Z.of_nat h - 1) / 2) mod Z.of_nat h');
               Z.to_nat ((Z.of_nat j + (Z.of_nat w - 1) / 2) mod Z.of_nat w')].
Proof.
  intro Hs. unfold unshift, roll. rewrite Hs. simpl.
  eexists. split; [reflexivity|]. split; [reflexivity|].
  intros n k i j Hn Hk Hi Hj. unfold fget.
  rewrite get_tab by (simpl; tauto). simpl.
  rewrite get_tab.
  - simpl. do 4 f_equal; [f_equal; f_equal; lia | do 3 f_equal; lia].
  - simpl. repeat split; auto.
    pose proof (Z.mod_pos_bound (Z.of_nat j - - ((Z.of_nat w - 1) / 2)) (Z.of_nat w')). lia.
Qed.

Section InverseFacts.
Variables rfft irfft inverse : ftensor -> result ftensor.

(** The stages of [iConv2d.inverse].  For every input [y] of shape
    (bs, c, h, w) (and a bias with one entry per channel), it subtracts the
    bias channel by channel; it returns [x] exactly when the transform of
    the difference succeeds ([v]), the realified transform of the padded
    kernel is built ([K], one matrix per frequency bin), [torch.inverse]
    inverts it ([Kinv]), the product is transformed back ([conv_inverse]),
    and [x] is [conv_inverse] rolled by [-((h-1)//2)] along the height axis
    and by [-((w-1)//2)] along the width axis.  The rolls never fail on a
    4-dimensional tensor, of spatial size h' by w' say: entry (i, j) of their
    result is entry ((i + (h-1)//2) mod h', (j + (w-1)//2) mod w') of their
    argument. *)
Theorem iConv2d_inverse_debias_invert_roll
        (self : iConv2d) (y : ftensor) (bs c h w : nat) :
  shape y = [bs; c; h; w] ->
  shape (conv_bias self) = [c] ->
  let debiased :=
    ftab [bs; c; h; w]
         (fun idx => PrimFloat.sub (fget y idx) (fget (conv_bias self) [nth 1 idx 0])) in
  sub_bias y (conv_bias self) = Ok debiased /\
  (forall x,
     iConv2d_inverse rfft irfft inverse self y = Ok x <->
     exists v K Kinv conv_inverse,
       phi_fft_input_of rfft debiased = Ok v /\
       (pw <- phi_fft_weight_of rfft (conv_weight self) w ;;
        permute 0%float pw [2; 3; 0; 1]) = Ok K /\
       inverse K = Ok Kinv /\
       conv_inverse_from irfft Kinv v = Ok conv_inverse /\
       unshift h w conv_inverse = Ok x) /\
  (forall conv_inverse b' c' h' w',
     shape conv_inverse = [b'; c'; h'; w'] ->
     exists x,
       unshift h w conv_inverse = Ok x /\
       shape x = [b'; c'; h'; w'] /\
       forall n k i j, n < b' -> k < c' -> i < h' -> j < w' ->
         fget x [n; k; i; j] =
         fget conv_inverse
              [n; k;
               Z.to_nat ((Z.of_nat i + (Z.of_nat h - 1) / 2) mod Z.of_nat h');
               Z.to_nat ((Z.of_nat j + (Z.of_nat w - 1) / 2) mod Z.of_nat w')]).
Proof.
  intros Hy Hb debiased.
  assert (Hsub : sub_bias y (conv_bias self) = Ok debiased)
    by (apply sub_bias_eq; assumption).
  split; [exact Hsub|]. split.
  - intro x. unfold iConv2d_inverse, inverse_fft_conv3x3_pytorch, conv_inverse_of.
    rewrite Hsub. cbn [bind]. unfold size4. cbn [shape debiased ftab tab bind].
    split.
    + intro H.
      apply bind_ok in H. destruct H as (ci & H & Hroll).
      apply bind_ok in H. destruct H as (v & Hv & H).
      apply bind_ok in H. destruct H as (pw & Hpw & H).
      apply bind_ok in H. destruct H as (K & HK & H).
      apply bind_ok in H. destruct H as (Kinv & HKinv & H).
      exists v, K, Kinv, ci. rewrite Hpw. cbn [bind]. auto.
    + intros (v & K & Kinv & ci & Hv & HK & HKinv & Hci & Hroll).
      apply bind_ok in HK. destruct HK as (pw & Hpw & HK).
      fold debiased. rewrite Hv. cbn [bind]. rewrite Hpw. cbn [bind].
      rewrite HK. cbn [bind]. rewrite HKinv. cbn [bind]. rewrite Hci. cbn [bind].
      exact Hroll.
  - intros ci b' c' h' w' Hs. exact (unshift_spec h w ci Hs).
Qed.
End InverseFacts.

Lemma iConv2d_inverse_debias_invert_roll_witness :
  sub_bias image_4x4 (conv_bias side_layer) =
  Ok (ftab [1; 1; 4; 4]
        (fun idx => PrimFloat.sub (fget image_4x4 idx)
                      (fget (conv_bias side_layer) [nth 1 idx 0]))).
Proof.
  exact (proj1 (@iConv2d_inverse_debias_invert_roll
                  reference.rfft reference.irfft reference.inverse
                  side_layer image_4x4 1 1 4 4 eq_refl eq_refl)).
Defined.

(** ** iConv1x1 *)

Lemma nth_repeat_lt {T : Type} (v d : T) (n i : nat) : nth i (repeat v n) d = v \/ n <= i.
Proof.
  revert i. induction n as [|n IH]; intro i; [right; lia|].
  destruct i as [|i]; simpl; [now left|]. destruct (IH i); [now left | right; lia].
Qed.

Section Conv1x1Facts.
Variable slogdet_1 : ftensor -> result float.

(** C6. After a forward pass on an input of shape (bs, c, H, W), [logdet()]
    of the 1x1 convolution with weight matrix [m = weight[:,:,0,0]] returns
    a tensor of shape (bs) whose every entry is
    [slogdet(m)[1] * H * W]; the shape is the one [forward] cached (before
    any forward pass the attribute is missing), whether or not the
    convolution of that pass succeeded. *)
Theorem iConv1x1_logdet_after_forward
        (self : iConv1x1) (x m : ftensor) (l : float) (bs c H W : nat) :
  shape x = [bs; c; H; W] ->
  index_colon_colon_0_0 (weight self) = Ok m ->
  slogdet_1 m = Ok l ->
  let self' := fst (iConv1x1_forward self x) in
  _input_shape self' = Some (shape x) /\
  weight self' = weight self /\
  exists r,
    iConv1x1_logdet slogdet_1 self' = Ok r /\
    shape r = [bs] /\
    forall i, i < bs ->
      fget r [i] = PrimFloat.mul (PrimFloat.mul l (float_of_nat H)) (float_of_nat W).
Proof.
  intros Hx Hm Hl self'. split; [reflexivity|]. split; [reflexivity|].
  unfold iConv1x1_logdet. simpl. rewrite Hx. simpl. rewrite Hm. simpl. rewrite Hl. simpl.
  eexists. split; [reflexivity|]. split; [reflexivity|].
  intros i Hi. unfold fget, get, expand0. simpl.
  rewrite Nat.mul_1_r, Nat.add_0_r.
  destruct (nth_repeat_lt (PrimFloat.mul (PrimFloat.mul l (float_of_nat H)) (float_of_nat W))
                          0%float bs i) as [E|E]; [exact E | lia].
Qed.
End Conv1x1Facts.

Lemma iConv1x1_logdet_after_forward_witness :
  exists r,
    iConv1x1_logdet reference.slogdet_1 (fst (iConv1x1_forward unit_conv1x1 batch_3x1x2x5)) = Ok r /\
    shape r = [3] /\
    forall i, i < 3 ->
      fget r [i] = PrimFloat.mul (PrimFloat.mul 0%float (float_of_nat 2)) (float_of_nat 5).
Proof.
  exact (proj2 (proj2 (@iConv1x1_logdet_after_forward reference.slogdet_1
                         unit_conv1x1 batch_3x1x2x5 (mkT [1; 1] [1%float]) 0%float 3 1 2 5
                         eq_refl eq_refl eq_refl))).
Defined.

(** Before the first forward pass [logdet] finds no cached shape. *)
Lemma iConv1x1_logdet_before_forward :
  iConv1x1_logdet reference.slogdet_1 unit_conv1x1 = Raise (AttributeError "_input_shape").
Proof. reflexivity. Qed.

(** ** iConv1x1 and iCoordInjection: forward followed by inverse *)

Example iConv1x1_inverse_forward_doubling :
  (let '(self', y) := iConv1x1_forward doubling_conv1x1 batch_3x1x2x5 in
   y' <- y ;; iConv1x1_inverse reference.inverse self' y')
  = Ok batch_3x1x2x5.
Proof. vm_compute. reflexivity. Qed.

Lemma broadcast_rev_same (s : list nat) : broadcast_rev s s = Some s.
Proof.
  induction s as [|a s IH]; simpl; [reflexivity|].
  now rewrite IH, Nat.eqb_refl.
Qed.

Lemma broadcast_shapes_same (s : list nat) : broadcast_shapes s s = Some s.
Proof.
  unfold broadcast_shapes. rewrite broadcast_rev_same. simpl. now rewrite rev_involutive.
Qed.

Lemma in_range_length (idx sh : list nat) : in_range idx sh -> length idx = length sh.
Proof.
  revert sh. induction idx as [|i idx IH]; intros [|n sh] H; simpl in *; try tauto.
  f_equal. apply IH. tauto.
Qed.

Lemma broadcast_index_same (sh idx : list nat) :
  in_range idx sh -> broadcast_index sh idx = idx.
Proof.
  intro H. unfold broadcast_index.
  rewrite (in_range_length _ _ H), Nat.sub_diag. simpl.
  revert sh H. induction idx as [|i idx IH]; intros [|n sh] H; simpl in *; try tauto.
  destruct H as [Hi H]. rewrite (IH _ H). f_equal.
  destruct (Nat.eqb n 1) eqn:E; [apply Nat.eqb_eq in E; lia | reflexivity].
Qed.

(** An elementwise operation on two tensors of the same shape. *)
Lemma pointwise2_same (f : float -> float -> float) (t1 t2 : ftensor) :
  shape t2 = shape t1 ->
  pointwise2 0%float f t1 t2 =
  Ok (ftab (shape t1) (fun idx => f (fget t1 idx) (fget t2 idx))).
Proof.
  intro Hs. unfold pointwise2. rewrite Hs, broadcast_shapes_same.
  apply f_equal. unfold ftab. apply tab_ext. intros idx Hidx.
  now rewrite broadcast_index_same.
Qed.

Lemma fget_tmap (f : float -> float) (t : ftensor) (idx : list nat) :
  wf t -> in_range idx (shape t) -> fget (tmap f t) idx = f (fget t idx).
Proof.
  intros Hwf Hidx. unfold fget, get, tmap. simpl.
  rewrite (nth_indep _ 0%float (f 0%float)).
  - apply map_nth.
  - rewrite length_map, Hwf. now apply ravel_lt.
Qed.

Section CoordInjectionFacts.
Variables mul_net bias_net : ftensor -> result ftensor.
Variable fexp : float -> float.

(** When both nets return tensors of the shape of the input, the inverse of
    the forward pass has the entries [((x * e + b) - b) / e] with
    [e = exp(log_mul)]: the input up to the rounding of these operations. *)
Theorem iCoordInjection_inverse_forward
        (self : iCoordInjection) (x log_mul bias : ftensor) (bs c h w : nat) :
  shape x = [bs; c; h; w] ->
  mul_net (empty_input bs h w) = Ok log_mul ->
  bias_net (empty_input bs h w) = Ok bias ->
  wf log_mul -> shape log_mul = shape x -> shape bias = shape x ->
  exists y x',
    snd (iCoordInjection_forward mul_net bias_net fexp self x) = Ok y /\
    iCoordInjection_inverse mul_net bias_net fexp
      (fst (iCoordInjection_forward mul_net bias_net fexp self x)) y = Ok x' /\
    shape x' = shape x /\
    forall idx, in_range idx (shape x) ->
      fget x' idx =
      PrimFloat.div
        (PrimFloat.sub
           (PrimFloat.add (PrimFloat.mul (fget x idx) (fexp (fget log_mul idx)))
                          (fget bias idx))
           (fget bias idx))
        (fexp (fget log_mul idx)).
Proof.
  intros Hx Hm Hb Hwf Hlm Hbs.
  unfold iCoordInjection_forward, iCoordInjection_inverse, size4.
  rewrite Hx, Hm, Hb. cbn [snd fst bind].
  unfold tmul, tadd, tsub, tdiv.
  rewrite pointwise2_same by (cbn [ftab tab tmap shape]; congruence). cbn [bind].
  rewrite pointwise2_same by (cbn [ftab tab tmap shape]; congruence).
  eexists. eexists. split; [reflexivity|].
  cbn [ftab tab shape]. rewrite Hx. cbn [bind]. rewrite Hm, Hb. cbn [bind].
  rewrite pointwise2_same by (cbn [ftab tab tmap shape]; congruence). cbn [bind].
  rewrite pointwise2_same by (cbn [ftab tab tmap shape]; congruence).
  cbn [ftab tab shape].
  split; [reflexivity|]. split; [reflexivity|].
  intros idx Hidx.
  assert (E : forall g, fget (ftab [bs; c; h; w] g) idx = g idx)
    by (intro g; unfold fget, ftab; now apply get_tab).
  rewrite !E.
  rewrite fget_tmap by (try assumption; rewrite Hlm, Hx; assumption).
  reflexivity.
Qed.
End CoordInjectionFacts.

Lemma iCoordInjection_inverse_forward_witness :
  exists y x',
    snd (iCoordInjection_forward zero_net zero_net reference.exp
           {| _log_mul := None |} batch_3x1x2x5) = Ok y /\
    iCoordInjection_inverse zero_net zero_net reference.exp
      (fst (iCoordInjection_forward zero_net zero_net reference.exp
              {| _log_mul := None |} batch_3x1x2x5)) y = Ok x' /\
    shape x' = shape batch_3x1x2x5 /\
    forall idx, in_range idx (shape batch_3x1x2x5) ->
      fget x' idx =
      PrimFloat.div
        (PrimFloat.sub
           (PrimFloat.add
              (PrimFloat.mul (fget batch_3x1x2x5 idx)
                 (reference.exp (fget (mkT [3; 1; 2; 5] (repeat 0%float 30)) idx)))
              (fget (mkT [3; 1; 2; 5] (repeat 0%float 30)) idx))
           (fget (mkT [3; 1; 2; 5] (repeat 0%float 30)) idx))
        (reference.exp (fget (mkT [3; 1; 2; 5] (repeat 0%float 30)) idx)).
Proof.
  apply (@iCoordInjection_inverse_forward zero_net zero_net reference.exp
           {| _log_mul := None |} batch_3x1x2x5
           (mkT [3; 1; 2; 5] (repeat 0%float 30))
           (mkT [3; 1; 2; 5] (repeat 0%float 30)) 3 1 2 5); reflexivity.
Defined.

(** ** iConv2d: forward followed by inverse *)

Section RoundTrip.
Variable conv_call : ftensor -> ftensor -> ftensor -> result ftensor.

(** With a kernel whose middle column is zero the inverse undoes the
    forward pass on a 4 by 4 image. *)
Example iConv2d_inverse_forward_side_kernel :
  (y <- snd (iConv2d_forward conv_call side_layer image_4x4) ;;
   iConv2d_inverse reference.rfft reference.irfft reference.inverse side_layer y)
  = Ok image_4x4.
Proof. vm_compute. reflexivity. Qed.

(** C1, at two inputs.  The circular convolution with [centre_kernel] is
    the identity, so [forward] returns its input.  On the 4 by 4 image the
    inverse returns the negated image: line 148 negates column 1 of the
    padded kernel, which for a width below 7 is a column of the kernel
    itself.  On the 2 by 4 image the inverse raises: line 147 pads the
    kernel to [w] by [w] instead of [h] by [w], and the product of line 154
    has mismatched batch dimensions. *)
Theorem iConv2d_inverse_forward_fails :
  snd (iConv2d_forward conv_call centre_layer image_4x4) = Ok image_4x4 /\
  iConv2d_inverse reference.rfft reference.irfft reference.inverse centre_layer image_4x4
    = Ok (tmap PrimFloat.opp image_4x4) /\
  snd (iConv2d_forward conv_call centre_layer image_2x4) = Ok image_2x4 /\
  iConv2d_inverse reference.rfft reference.irfft reference.inverse centre_layer image_2x4
    = Raise (RuntimeError "the size of the tensors must match").
Proof. repeat split; vm_compute; reflexivity. Qed.
End RoundTrip.

(** C5, at the inputs where the code departs from it.  The layer holds the
    kernel that is 1 at its centre (its entries sum to 1, so its frequency
    response at bin (0, 0) is 1 under every padding convention) and a zero
    bias.  On the 4 by 4 image the matrix that line 150 hands to
    [torch.inverse] is, at bin (0, 0), the realification of -1: line 148 has
    negated column 1 of the padded kernel, where line 147 put the centre.
    [inverse] then returns the negated image, which [forward] maps to itself
    and not back to the input.  On the 2 by 4 image the vectors of line 144
    come in 2 by 4 bins and the inverted matrices in 4 by 4 bins (line 147
    pads with the width on both axes), the product of line 154 raises, and
    so does [inverse]: no matrix is applied and nothing is rolled. *)
Theorem iConv2d_inverse_inverts_negated_kernel :
  fsum (data (conv_weight centre_layer)) = 1%float /\
  match (pw <- phi_fft_weight_of reference.rfft (conv_weight centre_layer) 4 ;;
         permute 0%float pw [2; 3; 0; 1]) with
  | Ok K => shape K = [4; 4; 2; 2] /\
            fget K [0; 0; 0; 0] = (-1)%float /\ fget K [0; 0; 1; 1] = (-1)%float
  | Raise _ => False
  end /\
  iConv2d_inverse reference.rfft reference.irfft reference.inverse centre_layer image_4x4
    = Ok (tmap PrimFloat.opp image_4x4) /\
  snd (iConv2d_forward (fun _ _ _ => Raise NotImplementedError) centre_layer
         (tmap PrimFloat.opp image_4x4))
    = Ok (tmap PrimFloat.opp image_4x4) /\
  tmap PrimFloat.opp image_4x4 <> image_4x4 /\
  sub_bias image_2x4 (conv_bias centre_layer) = Ok image_2x4 /\
  match phi_fft_input_of reference.rfft image_2x4,
        (pw <- phi_fft_weight_of reference.rfft (conv_weight centre_layer) 4 ;;
         K <- permute 0%float pw [2; 3; 0; 1] ;;
         reference.inverse K) with
  | Ok v, Ok Kinv =>
      shape v = [2; 4; 2; 1] /\ shape Kinv = [4; 4; 2; 2] /\
      conv_inverse_from reference.irfft Kinv v
        = Raise (RuntimeError "the size of the tensors must match")
  | _, _ => False
  end /\
  iConv2d_inverse reference.rfft reference.irfft reference.inverse centre_layer image_2x4
    = Raise (RuntimeError "the size of the tensors must match").
Proof.
  split; [vm_compute; reflexivity|].
  split; [vm_compute; repeat split; reflexivity|].
  split; [vm_compute; reflexivity|].
  split; [vm_compute; reflexivity|].
  split.
  { intro H. apply (f_equal (fun t => PrimFloat.eqb (fget t [0; 0; 0; 0]) 1)) in H.
    vm_compute in H. discriminate. }
  split; [vm_compute; reflexivity|].
  split; [vm_compute; repeat split; reflexivity|].
  vm_compute. reflexivity.
Qed.

(** ** iConv2d.logdet: the padded kernel *)

(** For an input of height [h] and width [w], both at least 3, the kernel is
    padded to [w] rows and [h] columns. *)
Lemma logdet_padded_weight_shape (weight : ftensor) (co ci h w : nat) :
  shape weight = [co; ci; 3; 3] -> 3 <= h -> 3 <= w ->
  exists p, logdet_padded_weight weight h w = Ok p /\ shape p = [co; ci; w; h].
Proof.
  intros Hs Hh Hw. unfold logdet_padded_weight, pad2d. rewrite Hs.
  cbn [length nth Nat.sub Nat.ltb Nat.leb upd_nth].
  destruct ((Z.of_nat 3 + 0 + (Z.of_nat w - 3) <? 0)%Z
            || (Z.of_nat 3 + 0 + (Z.of_nat h - 3) <? 0)%Z)%bool eqn:E.
  { apply orb_true_iff in E. destruct E as [E|E]; apply Z.ltb_lt in E; lia. }
  eexists. split; [reflexivity|]. cbn [shape tab]. repeat f_equal; lia.
Qed.

(** C4, at the cached shape (1, 1, 3, 5): the kernel is padded to 5 rows and
    3 columns, the transpose of the input's 3 rows and 5 columns. *)
Theorem iConv2d_logdet_pads_transposed :
  _shape (fst (iConv2d_forward (fun _ _ _ => Raise NotImplementedError)
                 centre_layer (mkT [1; 1; 3; 5] (repeat 0%float 15))))
    = Some [1; 1; 3; 5] /\
  exists p,
    logdet_padded_weight (conv_weight centre_layer) 3 5 = Ok p /\
    shape p = [1; 1; 5; 3].
Proof.
  split; [reflexivity|]. eexists. split; [vm_compute; reflexivity | reflexivity].
Qed.

(** ** Dataset selection *)

Section ScriptFacts.
Variable rest : Args -> DatasetConfig -> list event * result unit.

(** C9, as the code has it.  When the lower-cased dataset name is not
    [mnist], the script stops in the dataset selection with a
    [ValueError], having only created the checkpoint directory, written
    [command.sh], opened the summary writer and asked for CUDA: nothing of
    the rest of the script (data loaders, model, training) has run.  The
    message is ["Unsupported dataset "] followed by the name as given,
    except for [cifar10] and [svhn], where it is
    ["Only MNIST is implemented"]. *)
Theorem script_stops_at_dataset_selection (args : Args) :
  lower (dataset args) <> "mnist"%string ->
  script rest args =
  (before_selection args,
   Raise (ValueError
            (if (String.eqb (lower (dataset args)) "cifar10"
                 || String.eqb (lower (dataset args)) "svhn")%bool
             then "Only MNIST is implemented"
             else "Unsupported dataset " ++ dataset args)%string)).
Proof.
  intro Hn. unfold script, select_dataset.
  destruct (String.eqb (lower (dataset args)) "mnist") eqn:E.
  - apply String.eqb_eq in E. contradiction.
  - destruct (String.eqb (lower (dataset args)) "cifar10"
              || String.eqb (lower (dataset args)) "svhn")%bool; reflexivity.
Qed.
End ScriptFacts.

Lemma script_stops_at_dataset_selection_witness :
  script rest_outline args_imagenet =
  (before_selection args_imagenet, Raise (ValueError "Unsupported dataset ImageNet")).
Proof.
  apply (@script_stops_at_dataset_selection rest_outline args_imagenet).
  vm_compute. discriminate.
Defined.

(** C9 fails for [cifar10]: the error message does not contain the name. *)
Lemma cifar10_error_does_not_echo_name :
  exists msg,
    snd (script rest_outline args_cifar10) = Raise (ValueError msg) /\
    String.index 0 "cifar10" msg = None /\
    String.index 0 "cifar10" (lower msg) = None.
Proof. eexists. repeat split; vm_compute; reflexivity. Qed.

(** ** The cross-entropy term *)

Section CrossEntropyFacts.
Variable NO_LABEL : Z.
Variable class_logits : list float -> list float.
Variable nll : list float -> Z -> float.


End CrossEntropyFacts.



(** * Further properties of the code *)

(** ** squeeze and unsqueeze *)

Section SqueezeMore.
Context {A : Type}.
Variable zero : A.

(** Where [squeeze] puts each entry: channel [c*r^2 + rh*r + rw] of the
    result, at row [i] and column [j], is channel [c] of the input at row
    [i*r + rh] and column [j*r + rw]. *)
Theorem squeeze_entries (x : Tensor A) (b C oh ow r : nat) :
  wf x -> 0 < r -> shape x = [b; C; oh * r; ow * r] ->
  exists y,
    squeeze zero x (Z.of_nat r) = Ok y /\
    shape y = [b; C * (r * r); oh; ow] /\
    forall n c rh rw i j,
      n < b -> c < C -> rh < r -> rw < r -> i < oh -> j < ow ->
      get zero y [n; c * (r * r) + rh * r + rw; i; j] =
      get zero x [n; c; i * r + rh; j * r + rw].
Proof.
  intros Hwf Hr Hs. rewrite (@squeeze_eq A zero x b C oh ow r Hr Hs).
  eexists. split; [reflexivity|]. split; [reflexivity|].
  intros n c rh rw i j Hn Hc Hrh Hrw Hi Hj.
  unfold get at 1. cbn [shape data].
  replace (ravel [b; C * (r * r); oh; ow] [n; c * (r * r) + rh * r + rw; i; j])
    with (ravel [b; C; r; r; oh; ow] [n; c; rh; rw; i; j])
    by (cbn [ravel numel fold_right]; lia).
  rewrite nth_tab_data by (simpl; tauto).
  cbn [nth]. unfold get. cbn [shape data]. rewrite Hs.
  f_equal. cbn [ravel numel fold_right]. lia.
Qed.

(** [squeeze] on a tensor whose dimensions are all positive, for a positive
    factor: it succeeds when the factor divides height and width, and
    otherwise the first [view] raises; nothing is truncated silently. *)
Theorem squeeze_succeeds_iff_divisible (x : Tensor A) (b C H W r : nat) :
  shape x = [b; C; H; W] -> 0 < r -> 0 < b -> 0 < C -> 0 < H -> 0 < W ->
  (H mod r = 0 /\ W mod r = 0 ->
   exists y, squeeze zero x (Z.of_nat r) = Ok y /\ shape y = [b; C * (r * r); H / r; W / r]) /\
  (~ (H mod r = 0 /\ W mod r = 0) ->
   squeeze zero x (Z.of_nat r) = Raise (RuntimeError "shape is invalid for input size")).
Proof.
  intros Hs Hr Hb HC HH HW. split.
  - intros [H1 H2].
    assert (EH : H = H / r * r).
    { pose proof (Nat.div_mod_eq H r). lia. }
    assert (EW : W = W / r * r).
    { pose proof (Nat.div_mod_eq W r). lia. }
    rewrite EH, EW in Hs at 1.
    rewrite (@squeeze_eq A zero x b C (H / r) (W / r) r Hr Hs).
    eexists. split; reflexivity.
  - intro Hnd. unfold squeeze, size4. rewrite Hs. cbn [bind].
    unfold floordiv.
    destruct (Z.of_nat r =? 0)%Z eqn:E; [apply Z.eqb_eq in E; lia|]. cbn [bind].
    unfold view.
    assert (Hq : forall n, (Z.of_nat n / Z.of_nat r)%Z = Z.of_nat (n / r)).
    { intro n. symmetry. apply Nat2Z.inj_div. }
    rewrite !Hq.
    replace (existsb (fun s => (s <? -1)%Z)
               [Z.of_nat b; Z.of_nat C; Z.of_nat (H / r); Z.of_nat r;
                Z.of_nat (W / r); Z.of_nat r]) with false.
    2:{ symmetry. cbn [existsb]. rewrite !orb_false_iff.
        repeat split; try apply Z.ltb_ge; lia. }
    replace (count_occ Z.eq_dec
               [Z.of_nat b; Z.of_nat C; Z.of_nat (H / r); Z.of_nat r;
                Z.of_nat (W / r); Z.of_nat r] (-1)%Z) with 0.
    2:{ symmetry. apply count_occ_not_In. cbn [In]. lia. }
    cbn [map]. rewrite !Nat2Z.id. rewrite Hs. cbn [numel fold_right].
    destruct (Nat.eqb (b * (C * (H / r * (r * (W / r * (r * 1))))))
                      (b * (C * (H * (W * 1))))) eqn:En; [|reflexivity].
    exfalso. apply Nat.eqb_eq in En. apply Hnd.
    pose proof (Nat.div_mod_eq H r) as DH. pose proof (Nat.div_mod_eq W r) as DW.
    pose proof (Nat.mod_upper_bound H r ltac:(lia)).
    pose proof (Nat.mod_upper_bound W r ltac:(lia)).
    assert (E1 : H / r * r * (W / r * r) = H * W) by nia.
    assert (L1 : H / r * r <= H) by nia.
    assert (L2 : W / r * r <= W) by nia.
    split; nia.
Qed.

End SqueezeMore.

Lemma squeeze_entries_witness :
  exists y, squeeze 0%float image_4x4 2 = Ok y /\ shape y = [1; 4; 2; 2].
Proof.
  destruct (@squeeze_entries float 0%float image_4x4 1 1 2 2 2
              eq_refl (Nat.lt_0_succ 1) eq_refl) as (y & H1 & H2 & _).
  exists y. split; assumption.
Defined.

Lemma squeeze_succeeds_iff_divisible_witness :
  squeeze 0%float image_4x4 3 = Raise (RuntimeError "shape is invalid for input size").
Proof.
  apply (proj2 (@squeeze_succeeds_iff_divisible float 0%float image_4x4 1 1 4 4 3
                  eq_refl (Nat.lt_0_succ 2) (Nat.lt_0_succ 0) (Nat.lt_0_succ 0)
                  (Nat.lt_0_succ 3) (Nat.lt_0_succ 3))).
  intros [H _]. discriminate H.
Defined.


Section SqueezeRoundTrips.
Context {A : Type}.
Variable zero : A.

(** Helpers: the two compositions, as single runs. *)
Lemma squeeze_then_unsqueeze (x : Tensor A) (b C oh ow r : nat) :
  wf x -> 0 < r -> shape x = [b; C; oh * r; ow * r] ->
  (y <- squeeze zero x (Z.of_nat r) ;; unsqueeze zero y (Z.of_nat r)) = Ok x.
Proof.
  intros Hwf Hr Hs. rewrite (@squeeze_eq A zero x b C oh ow r Hr Hs). cbn [bind].
  erewrite (@unsqueeze_eq A zero _ b C oh ow r Hr) by reflexivity. f_equal.
  destruct x as [sh d]. cbn [shape data] in *. subst sh. f_equal.
  transitivity (tab_data [b; C; oh; r; ow; r]
                  (fun idx => nth (ravel [b; C; oh; r; ow; r] idx) d zero)).
  - apply tab_data_ext.
    intros [|i0 [|i1 [|i2 [|i3 [|i4 [|i5 [|? ?]]]]]]] Hidx; simpl in Hidx; try tauto.
    destruct Hidx as (H0 & H1 & H2 & H3 & H4 & H5 & _).
    cbn [nth]. unfold get. cbn [shape data].
    rewrite nth_tab_data by (simpl; tauto).
    reflexivity.
  - apply tab_data_get. unfold wf in Hwf. cbn [shape data numel fold_right] in *. lia.
Qed.

Lemma unsqueeze_then_squeeze (y : Tensor A) (b C oh ow r : nat) :
  wf y -> 0 < r -> shape y = [b; C * (r * r); oh; ow] ->
  (x <- unsqueeze zero y (Z.of_nat r) ;; squeeze zero x (Z.of_nat r)) = Ok y.
Proof.
  intros Hwf Hr Hs. rewrite (@unsqueeze_eq A zero y b C oh ow r Hr Hs). cbn [bind].
  erewrite (@squeeze_eq A zero _ b C oh ow r Hr) by reflexivity. f_equal.
  destruct y as [sh d]. cbn [shape data] in *. subst sh. f_equal.
  transitivity (tab_data [b; C; r; r; oh; ow]
                  (fun idx => nth (ravel [b; C; r; r; oh; ow] idx) d zero)).
  - apply tab_data_ext.
    intros [|i0 [|i1 [|i2 [|i3 [|i4 [|i5 [|? ?]]]]]]] Hidx; simpl in Hidx; try tauto.
    destruct Hidx as (H0 & H1 & H2 & H3 & H4 & H5 & _).
    cbn [nth]. unfold get. cbn [shape data].
    rewrite nth_tab_data by (simpl; tauto).
    reflexivity.
  - apply tab_data_get. unfold wf in Hwf. cbn [shape data numel fold_right] in *. lia.
Qed.

(** [unsqueeze] followed by [squeeze] with the same factor [r > 0] is the
    identity on every tensor whose channel count is a multiple of [r^2]. *)
Theorem squeeze_unsqueeze (y : Tensor A) (b C oh ow r : nat) :
  wf y -> 0 < r -> shape y = [b; C * (r * r); oh; ow] ->
  exists x,
    unsqueeze zero y (Z.of_nat r) = Ok x /\
    shape x = [b; C; oh * r; ow * r] /\
    squeeze zero x (Z.of_nat r) = Ok y.
Proof.
  intros Hwf Hr Hs. pose proof (@unsqueeze_then_squeeze y b C oh ow r Hwf Hr Hs) as H.
  rewrite (@unsqueeze_eq A zero y b C oh ow r Hr Hs) in *. cbn [bind] in H.
  eexists. split; [reflexivity|]. split; [reflexivity|]. exact H.
Qed.

(** [unsqueeze] on a tensor whose dimensions are all positive, for a positive
    factor [r]: it succeeds when [r^2] divides the channel count, and
    otherwise the first [view] raises; the floor division of the channel
    count does not drop channels silently. *)
Theorem unsqueeze_succeeds_iff_divisible (y : Tensor A) (b C H W r : nat) :
  shape y = [b; C; H; W] -> 0 < r -> 0 < b -> 0 < C -> 0 < H -> 0 < W ->
  (C mod (r * r) = 0 ->
   exists x, unsqueeze zero y (Z.of_nat r) = Ok x /\
             shape x = [b; C / (r * r); H * r; W * r]) /\
  (C mod (r * r) <> 0 ->
   unsqueeze zero y (Z.of_nat r) = Raise (RuntimeError "shape is invalid for input size")).
Proof.
  intros Hs Hr Hb HC HH HW. split.
  - intro H1.
    assert (EC : C = C / (r * r) * (r * r)).
    { pose proof (Nat.div_mod_eq C (r * r)). lia. }
    rewrite EC in Hs at 1.
    rewrite (@unsqueeze_eq A zero y b (C / (r * r)) H W r Hr Hs).
    eexists. split; reflexivity.
  - intro Hnd. unfold unsqueeze, size4. rewrite Hs. cbn [bind].
    rewrite Z.pow_2_r, <- Nat2Z.inj_mul.
    unfold floordiv.
    destruct (Z.of_nat (r * r) =? 0)%Z eqn:E; [apply Z.eqb_eq in E; nia|]. cbn [bind].
    rewrite <- Nat2Z.inj_div.
    unfold view.
    replace (existsb (fun s => (s <? -1)%Z)
               [Z.of_nat b; Z.of_nat (C / (r * r)); Z.of_nat r; Z.of_nat r;
                Z.of_nat H; Z.of_nat W]) with false.
    2:{ symmetry. cbn [existsb]. rewrite !orb_false_iff.
        repeat split; try apply Z.ltb_ge; lia. }
    replace (count_occ Z.eq_dec
               [Z.of_nat b; Z.of_nat (C / (r * r)); Z.of_nat r; Z.of_nat r;
                Z.of_nat H; Z.of_nat W] (-1)%Z) with 0.
    2:{ symmetry. apply count_occ_not_In. cbn [In]. lia. }
    cbn [map]. rewrite !Nat2Z.id. rewrite Hs. cbn [numel fold_right].
    destruct (Nat.eqb (b * (C / (r * r) * (r * (r * (H * (W * 1))))))
                      (b * (C * (H * (W * 1))))) eqn:En; [|reflexivity].
    exfalso. apply Nat.eqb_eq in En. apply Hnd.
    pose proof (Nat.div_mod_eq C (r * r)) as DC.
    assert (E1 : C / (r * r) * (r * r) = C) by nia.
    lia.
Qed.

(** The layer undoes itself on pairs: [inverse(forward((x, z)))] is [(x, z)]
    whenever the factor divides height and width of [x]. *)
Theorem SqueezeLayer_inverse_forward {Zt : Type}
        (self : SqueezeLayer) (x : Tensor A) (z : Zt) (b C oh ow r : nat) :
  wf x -> 0 < r -> downscale_factor self = Z.of_nat r ->
  shape x = [b; C; oh * r; ow * r] ->
  (out <- SqueezeLayer_forward zero self (x, z) ;; SqueezeLayer_inverse zero self out)
  = Ok (x, z).
Proof.
  intros Hwf Hr Hf Hs.
  pose proof (@squeeze_then_unsqueeze x b C oh ow r Hwf Hr Hs) as H.
  unfold SqueezeLayer_forward, SqueezeLayer_inverse. rewrite Hf.
  destruct (squeeze zero x (Z.of_nat r)) as [y|e]; cbn [bind] in *; [|discriminate].
  now rewrite H.
Qed.

(** And [forward(inverse((y, z)))] is [(y, z)] whenever the channel count of
    [y] is a multiple of the squared factor. *)
Theorem SqueezeLayer_forward_inverse {Zt : Type}
        (self : SqueezeLayer) (y : Tensor A) (z : Zt) (b C oh ow r : nat) :
  wf y -> 0 < r -> downscale_factor self = Z.of_nat r ->
  shape y = [b; C * (r * r); oh; ow] ->
  (inp <- SqueezeLayer_inverse zero self (y, z) ;; SqueezeLayer_forward zero self inp)
  = Ok (y, z).
Proof.
  intros Hwf Hr Hf Hs.
  pose proof (@unsqueeze_then_squeeze y b C oh ow r Hwf Hr Hs) as H.
  unfold SqueezeLayer_forward, SqueezeLayer_inverse. rewrite Hf.
  destruct (unsqueeze zero y (Z.of_nat r)) as [x|e]; cbn [bind] in *; [|discriminate].
  now rewrite H.
Qed.
End SqueezeRoundTrips.

Lemma squeeze_unsqueeze_witness :
  exists x,
    unsqueeze 0%float (mkT [1; 4; 2; 2] (data image_4x4)) 2 = Ok x /\
    shape x = [1; 1; 4; 4] /\
    squeeze 0%float x 2 = Ok (mkT [1; 4; 2; 2] (data image_4x4)).
Proof.
  exact (@squeeze_unsqueeze float 0%float (mkT [1; 4; 2; 2] (data image_4x4)) 1 1 2 2 2
           eq_refl (Nat.lt_0_succ 1) eq_refl).
Defined.

Lemma unsqueeze_succeeds_iff_divisible_witness :
  unsqueeze 0%float image_4x4 2 = Raise (RuntimeError "shape is invalid for input size").
Proof.
  apply (proj2 (@unsqueeze_succeeds_iff_divisible float 0%float image_4x4 1 1 4 4 2
                  eq_refl (Nat.lt_0_succ 1) (Nat.lt_0_succ 0) (Nat.lt_0_succ 0)
                  (Nat.lt_0_succ 3) (Nat.lt_0_succ 3))).
  intro H. discriminate H.
Defined.

Lemma SqueezeLayer_inverse_forward_witness :
  (out <- SqueezeLayer_forward 0%float {| downscale_factor := 2 |} (image_4x4, tt) ;;
   SqueezeLayer_inverse 0%float {| downscale_factor := 2 |} out)
  = Ok (image_4x4, tt).
Proof.
  exact (@SqueezeLayer_inverse_forward float 0%float unit {| downscale_factor := 2 |}
           image_4x4 tt 1 1 2 2 2 eq_refl (Nat.lt_0_succ 1) eq_refl eq_refl).
Defined.

Lemma SqueezeLayer_forward_inverse_witness :
  (inp <- SqueezeLayer_inverse 0%float {| downscale_factor := 2 |}
            (mkT [1; 4; 2; 2] (data image_4x4), tt) ;;
   SqueezeLayer_forward 0%float {| downscale_factor := 2 |} inp)
  = Ok (mkT [1; 4; 2; 2] (data image_4x4), tt).
Proof.
  exact (@SqueezeLayer_forward_inverse float 0%float unit {| downscale_factor := 2 |}
           (mkT [1; 4; 2; 2] (data image_4x4)) tt 1 1 2 2 2
           eq_refl (Nat.lt_0_succ 1) eq_refl eq_refl).
Defined.

(** ** split, merge and padChannels at their edges *)

Section ChannelEdges.
Context {A : Type}.
Variable zero : A.

(** The two parts of [split(x, k)] for every integer [k]: the cut is at
    [s = min(k, C)] for [k >= 0] and at [s = max(0, C + k)] for [k < 0]
    (Python slice bounds); the first part holds channels [0 .. s-1], the
    second channels [s .. C-1]. *)
Theorem split_parts (x : Tensor A) (bs C H W : nat) (k : Z) :
  shape x = [bs; C; H; W] ->
  let s := if (k <? 0)%Z then Z.to_nat (Z.max 0 (Z.of_nat C + k))
           else Nat.min (Z.to_nat k) C in
  exists x1 x2,
    split zero x k = Ok (x1, x2) /\
    shape x1 = [bs; s; H; W] /\
    shape x2 = [bs; C - s; H; W] /\
    (forall n c h w, n < bs -> c < s -> h < H -> w < W ->
       get zero x1 [n; c; h; w] = get zero x [n; c; h; w]) /\
    (forall n c h w, n < bs -> c < C - s -> h < H -> w < W ->
       get zero x2 [n; c; h; w] = get zero x [n; s + c; h; w]).
Proof.
  intros Hs s.
  rewrite split_narrow by (rewrite Hs; simpl; lia).
  rewrite Hs. cbn [nth]. fold (slice_bound k C). change (slice_bound k C) with s.
  eexists; eexists. split; [reflexivity|].
  unfold narrow. rewrite Hs. cbn [shape tab upd_nth].
  split; [reflexivity|]. split; [reflexivity|]. split.
  - intros n c h w Hn Hc Hh Hw. rewrite get_tab by (simpl; tauto). reflexivity.
  - intros n c h w Hn Hc Hh Hw. rewrite get_tab by (simpl; tauto). reflexivity.
Qed.

(** [split] undoes [merge]: cutting the concatenation of two well-formed
    tensors that agree on batch, height and width at the channel count of the
    first gives the two tensors back. *)
Theorem split_merge (x1 x2 : Tensor A) (bs C1 C2 H W : nat) :
  wf x1 -> wf x2 ->
  shape x1 = [bs; C1; H; W] -> shape x2 = [bs; C2; H; W] ->
  exists x,
    merge zero x1 x2 = Ok x /\
    shape x = [bs; C1 + C2; H; W] /\
    split zero x (Z.of_nat C1) = Ok (x1, x2).
Proof.
  intros Hw1 Hw2 Hs1 Hs2. unfold merge, cat. rewrite Hs1, Hs2.
  cbn [length Nat.ltb Nat.leb negb upd_nth nth]. rewrite shape_eqb_refl. cbn [negb].
  eexists. split; [reflexivity|]. split; [reflexivity|].
  rewrite split_narrow by (simpl; lia). cbn [shape tab nth].
  rewrite slice_bound_in by lia.
  replace (C1 + C2 - C1) with C2 by lia.
  unfold narrow. cbn [shape tab upd_nth].
  f_equal. f_equal.
  - rewrite <- Hs1. apply (tab_eq_tensor zero); [assumption|]. rewrite Hs1.
    intros [|n [|c [|h [|w [|? ?]]]]] Hidx; simpl in Hidx; try tauto.
    destruct Hidx as (Hn & Hc & Hh & Hw & _). cbn [upd_nth Nat.add].
    rewrite get_tab by (simpl; repeat split; auto; lia). cbn [nth].
    change (match C1 with 0 => false | S m' => c <=? m' end) with (c <? C1).
    apply Nat.ltb_lt in Hc. now rewrite Hc.
  - rewrite <- Hs2. apply (tab_eq_tensor zero); [assumption|]. rewrite Hs2.
    intros [|n [|c [|h [|w [|? ?]]]]] Hidx; simpl in Hidx; try tauto.
    destruct Hidx as (Hn & Hc & Hh & Hw & _). cbn [upd_nth].
    rewrite get_tab by (simpl; repeat split; auto; lia). cbn [nth upd_nth].
    change (match C1 with 0 => false | S m' => C1 + c <=? m' end) with (C1 + c <? C1).
    destruct (C1 + c <? C1) eqn:E; [apply Nat.ltb_lt in E; lia|].
    do 3 f_equal. lia.
Qed.

(** [merge] raises when its operands, of four dimensions, differ in batch
    size, height or width. *)
Theorem merge_mismatch (x1 x2 : Tensor A) (b1 c1 h1 w1 b2 c2 h2 w2 : nat) :
  shape x1 = [b1; c1; h1; w1] -> shape x2 = [b2; c2; h2; w2] ->
  (b1, h1, w1) <> (b2, h2, w2) ->
  merge zero x1 x2 =
  Raise (RuntimeError "sizes of tensors must match except in the cat dimension").
Proof.
  intros Hs1 Hs2 Hne. unfold merge, cat. rewrite Hs1, Hs2.
  cbn [length Nat.ltb Nat.leb negb upd_nth].
  destruct (shape_eqb [b1; 0; h1; w1] [b2; 0; h2; w2]) eqn:E; [|reflexivity].
  apply shape_eqb_eq in E. inversion E. subst. contradiction.
Qed.

(** What [padChannels.inverse] returns on any 4-dimensional input with [C]
    channels: the first [C - p] channels when [0 <= p <= C]; all [C] channels
    when [p < 0]; and, when [p > C], no exception but the first
    [max(0, 2C - p)] channels, because the negative slice bound [C - p] counts
    from the end. *)
Theorem padChannels_inverse_channels (self : padChannels) (y : Tensor A)
        (bs C H W : nat) :
  shape y = [bs; C; H; W] ->
  let p := pad_size self in
  let n := Z.to_nat (if (p <? 0)%Z then Z.of_nat C
                     else if (p <=? Z.of_nat C)%Z then Z.of_nat C - p
                     else Z.max 0 (2 * Z.of_nat C - p))%Z in
  exists x,
    padChannels_inverse zero self y = Ok x /\
    shape x = [bs; n; H; W] /\
    forall b c h w, b < bs -> c < n -> h < H -> w < W ->
      get zero x [b; c; h; w] = get zero y [b; c; h; w].
Proof.
  intros Hs p n. unfold padChannels_inverse, channels_upto. rewrite Hs.
  cbn [length Nat.ltb Nat.leb nth]. fold p.
  assert (En : slice_bound (Z.of_nat C - p) C = n).
  { unfold slice_bound, n.
    destruct (Z.of_nat C - p <? 0)%Z eqn:E1, (p <? 0)%Z eqn:E2, (p <=? Z.of_nat C)%Z eqn:E3;
      try apply Z.ltb_lt in E1; try apply Z.ltb_ge in E1;
      try apply Z.ltb_lt in E2; try apply Z.ltb_ge in E2;
      try apply Z.leb_le in E3; try apply Z.leb_gt in E3; lia. }
  rewrite En. eexists. split; [reflexivity|].
  unfold narrow. rewrite Hs. cbn [shape tab upd_nth].
  split; [reflexivity|].
  intros b c h w Hb Hc Hh Hw. rewrite get_tab by (simpl; tauto). reflexivity.
Qed.

(** A negative pad size makes [forward] crop: for [-C < p < 0] it returns
    the first [C + p] channels, and [inverse] does not bring the dropped ones
    back (it returns the cropped tensor unchanged); for [p < -C] it raises. *)
Theorem padChannels_negative_pad (self : padChannels) (x : Tensor A)
        (bs C H W : nat) :
  shape x = [bs; C; H; W] -> (pad_size self < 0)%Z -> 0 < W ->
  let m := Z.to_nat (Z.of_nat C + pad_size self) in
  ((- Z.of_nat C < pad_size self)%Z ->
   exists y,
     padChannels_forward zero self x = Ok y /\
     shape y = [bs; m; H; W] /\
     (forall b c h w, b < bs -> c < m -> h < H -> w < W ->
        get zero y [b; c; h; w] = get zero x [b; c; h; w]) /\
     padChannels_inverse zero self y = Ok y) /\
  ((pad_size self < - Z.of_nat C)%Z ->
   padChannels_forward zero self x =
   Raise (RuntimeError "padding resulted in a negative output size")).
Proof.
  intros Hs Hp HW m. split.
  - intro Hlo.
    assert (Hf : padChannels_forward zero self x =
                 Ok (tab [bs; m; H; W] (fun idx => get zero x idx))).
    { unfold padChannels_forward, permute. rewrite Hs.
      cbn [length is_permutation].
      replace (is_permutation [0; 2; 1; 3] 4) with true by reflexivity.
      cbn [bind]. unfold padChannels_pad, pad2d.
      cbn [shape tab map nth length Nat.ltb Nat.leb Nat.sub].
      destruct ((Z.of_nat C + 0 + pad_size self <? 0)%Z
                || (Z.of_nat W + 0 + 0 <? 0)%Z)%bool eqn:E.
      { apply orb_true_iff in E. destruct E as [E|E]; apply Z.ltb_lt in E; lia. }
      cbn [bind shape tab upd_nth length is_permutation].
      replace (is_permutation [0; 2; 1; 3] 4) with true by reflexivity.
      f_equal. cbn [map nth].
      replace (Z.to_nat (Z.of_nat C + 0 + pad_size self)) with m by (unfold m; lia).
      replace (Z.to_nat (Z.of_nat W + 0 + 0)) with W by lia.
      apply tab_ext. intros [|i [|j [|k [|l [|? ?]]]]] Hidx; simpl in Hidx; try tauto.
      destruct Hidx as (Hi & Hj & Hk & Hl & _). cbn [map seq nth index_of Nat.eqb length].
      rewrite get_tab by (simpl; tauto). cbn [nth upd_nth].
      rewrite !Z.sub_0_r.
      replace ((0 <=? Z.of_nat j)%Z && (Z.of_nat j <? Z.of_nat C)%Z
               && (0 <=? Z.of_nat l)%Z && (Z.of_nat l <? Z.of_nat W)%Z)%bool with true.
      2:{ symmetry. rewrite !andb_true_iff. repeat split;
          try apply Z.leb_le; try apply Z.ltb_lt; unfold m in *; lia. }
      rewrite !Nat2Z.id. rewrite get_tab by (simpl; repeat split; auto; unfold m in *; lia).
      reflexivity. }
    rewrite Hf. eexists. split; [reflexivity|]. split; [reflexivity|]. split.
    + intros b c h w Hb Hc Hh Hw. rewrite get_tab by (simpl; tauto). reflexivity.
    + unfold padChannels_inverse, channels_upto.
      cbn [shape tab length Nat.ltb Nat.leb nth].
      replace (slice_bound (Z.of_nat m - pad_size self) m) with m
        by (unfold slice_bound;
            destruct (Z.of_nat m - pad_size self <? 0)%Z eqn:E;
            [apply Z.ltb_lt in E; lia | lia]).
      f_equal. unfold narrow. cbn [shape tab upd_nth].
      apply tab_ext. intros [|i [|j [|k [|l [|? ?]]]]] Hidx; simpl in Hidx; try tauto.
      destruct Hidx as (Hi & Hj & Hk & Hl & _). cbn [upd_nth Nat.add].
      rewrite get_tab by (simpl; tauto). reflexivity.
  - intro Hlo. unfold padChannels_forward, permute. rewrite Hs.
    cbn [length is_permutation].
    replace (is_permutation [0; 2; 1; 3] 4) with true by reflexivity.
    cbn [bind]. unfold padChannels_pad, pad2d.
    cbn [shape tab map nth length Nat.ltb Nat.leb Nat.sub].
    replace (Z.of_nat C + 0 + pad_size self <? 0)%Z with true
      by (symmetry; apply Z.ltb_lt; lia).
    reflexivity.
Qed.
End ChannelEdges.

Lemma split_parts_witness :
  exists x1 x2,
    split 0%float batch_3x1x2x5 (-1) = Ok (x1, x2) /\
    shape x1 = [3; 0; 2; 5] /\ shape x2 = [3; 1; 2; 5].
Proof.
  destruct (@split_parts float 0%float batch_3x1x2x5 3 1 2 5 (-1)%Z eq_refl)
    as (x1 & x2 & H1 & H2 & H3 & _).
  exists x1, x2. repeat split; assumption.
Defined.

Lemma split_merge_witness :
  exists x,
    merge 0%float batch_3x1x2x5 batch_3x1x2x5 = Ok x /\
    shape x = [3; 2; 2; 5] /\
    split 0%float x 1 = Ok (batch_3x1x2x5, batch_3x1x2x5).
Proof.
  exact (@split_merge float 0%float batch_3x1x2x5 batch_3x1x2x5 3 1 1 2 5
           eq_refl eq_refl eq_refl eq_refl).
Defined.

Lemma merge_mismatch_witness :
  merge 0%float image_4x4 batch_3x1x2x5 =
  Raise (RuntimeError "sizes of tensors must match except in the cat dimension").
Proof.
  apply (@merge_mismatch float 0%float image_4x4 batch_3x1x2x5 1 1 4 4 3 1 2 5
           eq_refl eq_refl).
  intro H. discriminate H.
Defined.

Lemma padChannels_inverse_channels_witness :
  exists x,
    padChannels_inverse 0%float {| pad_size := 3 |} batch_3x1x2x5 = Ok x /\
    shape x = [3; 0; 2; 5].
Proof.
  destruct (@padChannels_inverse_channels float 0%float {| pad_size := 3 |}
              batch_3x1x2x5 3 1 2 5 eq_refl) as (x & H1 & H2 & _).
  exists x. split; assumption.
Defined.

Lemma padChannels_negative_pad_witness :
  exists y,
    padChannels_forward 0%float {| pad_size := -1 |}
      (mkT [1; 4; 2; 2] (data image_4x4)) = Ok y /\
    shape y = [1; 3; 2; 2] /\
    padChannels_inverse 0%float {| pad_size := -1 |} y = Ok y.
Proof.
  destruct (proj1 (@padChannels_negative_pad float 0%float {| pad_size := -1 |}
                     (mkT [1; 4; 2; 2] (data image_4x4)) 1 4 2 2
                     eq_refl eq_refl (Nat.lt_0_succ 1)))
    as (y & H1 & H2 & _ & H4).
  - reflexivity.
  - exists y. repeat split; assumption.
Defined.

(** ** phi, phi_inv, phi_vec and phi_inv_vec *)

Lemma fget_ftab (sh idx : list nat) (f : list nat -> float) :
  in_range idx sh -> fget (ftab sh f) idx = f idx.
Proof. intro H. unfold fget, ftab. now apply get_tab. Qed.

Lemma fget_tab (sh idx : list nat) (f : list nat -> float) :
  in_range idx sh -> fget (tab sh f) idx = f idx.
Proof. intro H. unfold fget. now apply get_tab. Qed.

Lemma half_double (c : nat) : (c + c + 1) / 2 = c.
Proof.
  symmetry. apply (Nat.div_unique (c + c + 1) 2 c 1); lia.
Qed.

(** [C[..., k]] of a tensor of shape (c1, c2, h, w, 2). *)
Lemma select_last_5 (C : ftensor) (c1 c2 h w k : nat) :
  shape C = [c1; c2; h; w; 2] -> k < 2 ->
  select_last 0%float C k =
  Ok (tab [c1; c2; h; w] (fun idx => fget C (idx ++ [k]))).
Proof.
  intros Hs Hk. unfold select_last. rewrite Hs. cbn [rev app removelast].
  apply Nat.ltb_lt in Hk. rewrite Hk. reflexivity.
Qed.

(** [cat] of two tables along dimension 1. *)
Lemma cat_1_tab (c1 ca cb h w : nat) (f g : list nat -> float) :
  cat 0%float (tab [c1; ca; h; w] f) (tab [c1; cb; h; w] g) 1 =
  Ok (tab [c1; ca + cb; h; w]
        (fun idx => if nth 1 idx 0 <? ca then fget (tab [c1; ca; h; w] f) idx
                    else fget (tab [c1; cb; h; w] g) (upd_nth 1 (fun i => i - ca) idx))).
Proof.
  unfold cat. cbn [shape tab length upd_nth nth].
  change (1 <? 4) with true. rewrite shape_eqb_refl. reflexivity.
Qed.

(** [cat] of two tables along dimension 0. *)
Lemma cat_0_tab (ca cb c2 h w : nat) (f g : list nat -> float) :
  cat 0%float (tab [ca; c2; h; w] f) (tab [cb; c2; h; w] g) 0 =
  Ok (tab [ca + cb; c2; h; w]
        (fun idx => if nth 0 idx 0 <? ca then fget (tab [ca; c2; h; w] f) idx
                    else fget (tab [cb; c2; h; w] g) (upd_nth 0 (fun i => i - ca) idx))).
Proof.
  unfold cat. cbn [shape tab length upd_nth nth].
  change (0 <? 4) with true. rewrite shape_eqb_refl. reflexivity.
Qed.

Lemma map_tab_data (f : float -> float) (sh : list nat) (g : list nat -> float) :
  map f (tab_data sh g) = tab_data sh (fun idx => f (g idx)).
Proof.
  revert g. induction sh as [|n sh IH]; intro g; [reflexivity|].
  cbn [tab_data]. generalize (seq 0 n) as l.
  induction l as [|i l IHl]; [reflexivity|].
  cbn [flat_map]. rewrite map_app, IH, IHl. reflexivity.
Qed.

Lemma tmap_tab (f : float -> float) (sh : list nat) (g : list nat -> float) :
  tmap f (tab sh g) = tab sh (fun idx => f (g idx)).
Proof. unfold tmap, tab. cbn [shape data]. now rewrite map_tab_data. Qed.

(** The pieces of [chunk(t, 2, dim)] of a table with an even number of
    entries along [dim]. *)
Lemma chunk2_0_tab (c m h w : nat) (f : list nat -> float) :
  chunk2 0%float (tab [c + c; m; h; w] f) 0 =
  Ok (tab [c; m; h; w] f,
      tab [c; m; h; w] (fun idx => f (upd_nth 0 (fun i => c + i) idx))).
Proof.
  unfold chunk2. cbn [shape tab length nth]. change (0 <? 4) with true. cbn [negb].
  destruct (Nat.eqb (c + c) 1) eqn:E; [apply Nat.eqb_eq in E; lia|].
  rewrite half_double. replace (c + c - c) with c by lia.
  unfold narrow. cbn [shape tab upd_nth]. f_equal. f_equal; apply tab_ext;
    intros [|i [|j [|a [|b [|? ?]]]]] Hidx; simpl in Hidx; try tauto;
    destruct Hidx as (Hi & Hj & Ha & Hb & _); cbn [upd_nth Nat.add];
    rewrite get_tab by (simpl; repeat split; auto; lia); reflexivity.
Qed.

Lemma chunk2_1_tab (n c h w : nat) (f : list nat -> float) :
  chunk2 0%float (tab [n; c + c; h; w] f) 1 =
  Ok (tab [n; c; h; w] f,
      tab [n; c; h; w] (fun idx => f (upd_nth 1 (fun i => c + i) idx))).
Proof.
  unfold chunk2. cbn [shape tab length nth]. change (1 <? 4) with true. cbn [negb].
  destruct (Nat.eqb (c + c) 1) eqn:E; [apply Nat.eqb_eq in E; lia|].
  rewrite half_double. replace (c + c - c) with c by lia.
  unfold narrow. cbn [shape tab upd_nth]. f_equal. f_equal; apply tab_ext;
    intros [|i [|j [|a [|b [|? ?]]]]] Hidx; simpl in Hidx; try tauto;
    destruct Hidx as (Hi & Hj & Ha & Hb & _); cbn [upd_nth Nat.add];
    rewrite get_tab by (simpl; repeat split; auto; lia); reflexivity.
Qed.

(** [stack] of two tables of four dimensions along a new last one. *)
Lemma stack_last_tab (n c h w : nat) (f g : list nat -> float) :
  stack_last 0%float (tab [n; c; h; w] f) (tab [n; c; h; w] g) =
  Ok (tab [n; c; h; w; 2]
        (fun idx => if Nat.eqb (last idx 0) 0 then f (removelast idx)
                    else g (removelast idx))).
Proof.
  unfold stack_last. cbn [shape tab app]. rewrite shape_eqb_refl.
  f_equal. apply tab_ext.
  intros [|i [|j [|a [|b [|k [|? ?]]]]]] Hidx; simpl in Hidx; try tauto.
  destruct Hidx as (Hi & Hj & Ha & Hb & Hk & _). cbn [last removelast].
  rewrite !get_tab by (simpl; tauto). reflexivity.
Qed.

(** The realification as one table. *)
Lemma phi_eq (C : ftensor) (c1 c2 h w : nat) :
  shape C = [c1; c2; h; w; 2] ->
  phi C =
  Ok (tab [c1 + c1; c2 + c2; h; w]
        (fun idx =>
           let i := nth 0 idx 0 in
           let j := nth 1 idx 0 in
           let a := nth 2 idx 0 in
           let b := nth 3 idx 0 in
           if i <? c1 then
             if j <? c2 then fget C [i; j; a; b; 0] else fget C [i; j - c2; a; b; 1]
           else
             if j <? c2 then PrimFloat.opp (fget C [i - c1; j; a; b; 1])
             else fget C [i - c1; j - c2; a; b; 0])).
Proof.
  intro Hs. unfold phi.
  rewrite (select_last_5 C Hs (k := 0)) by lia. cbn [bind].
  rewrite (select_last_5 C Hs (k := 1)) by lia. cbn [bind].
  rewrite cat_1_tab. cbn [bind]. rewrite tmap_tab, cat_1_tab. cbn [bind].
  rewrite cat_0_tab. f_equal. apply tab_ext.
  intros [|i [|j [|a [|b [|? ?]]]]] Hidx; simpl in Hidx; try tauto.
  destruct Hidx as (Hi & Hj & Ha & Hb & _).
  cbn [nth upd_nth].
  destruct (i <? c1) eqn:Ei; [apply Nat.ltb_lt in Ei | apply Nat.ltb_ge in Ei];
    (rewrite fget_tab by (simpl; repeat split; auto; lia)); cbn [nth upd_nth];
    (destruct (j <? c2) eqn:Ej; [apply Nat.ltb_lt in Ej | apply Nat.ltb_ge in Ej]);
    (rewrite fget_tab by (simpl; repeat split; auto; lia)); reflexivity.
Qed.

(** The four blocks of [phi(C)] for a tensor [C] of shape (c1, c2, h, w, 2)
    holding real parts [A = C[...,0]] and imaginary parts [B = C[...,1]]: the
    result has shape (2 c1, 2 c2, h, w), with [A] in the top left and bottom
    right blocks, [B] in the top right block and [-B] in the bottom left
    block (so it is [[A, B], [-B, A]]; the docstring writes
    [[A, -B], [B, A]]). *)
Theorem phi_blocks (C : ftensor) (c1 c2 h w : nat) :
  shape C = [c1; c2; h; w; 2] ->
  exists D,
    phi C = Ok D /\
    shape D = [c1 + c1; c2 + c2; h; w] /\
    forall i j a b, i < c1 -> j < c2 -> a < h -> b < w ->
      fget D [i; j; a; b] = fget C [i; j; a; b; 0] /\
      fget D [i; c2 + j; a; b] = fget C [i; j; a; b; 1] /\
      fget D [c1 + i; j; a; b] = PrimFloat.opp (fget C [i; j; a; b; 1]) /\
      fget D [c1 + i; c2 + j; a; b] = fget C [i; j; a; b; 0].
Proof.
  intro Hs. rewrite (phi_eq C Hs). eexists. split; [reflexivity|]. split; [reflexivity|].
  intros i j a b Hi Hj Ha Hb.
  assert (L1 : (i <? c1) = true) by (apply Nat.ltb_lt; lia).
  assert (L2 : (j <? c2) = true) by (apply Nat.ltb_lt; lia).
  assert (L3 : (c1 + i <? c1) = false) by (apply Nat.ltb_ge; lia).
  assert (L4 : (c2 + j <? c2) = false) by (apply Nat.ltb_ge; lia).
  repeat split; rewrite fget_tab by (simpl; repeat split; auto; lia);
    cbn [nth]; rewrite ?L1, ?L2, ?L3, ?L4;
    repeat f_equal; lia.
Qed.

(** [phi_inv] undoes [phi]: [phi_inv(phi(C))] is [C] for every well-formed
    [C] of shape (c1, c2, h, w, 2). *)
Theorem phi_inv_phi (C : ftensor) (c1 c2 h w : nat) :
  wf C -> shape C = [c1; c2; h; w; 2] ->
  (D <- phi C ;; phi_inv D) = Ok C.
Proof.
  intros Hwf Hs. rewrite (phi_eq C Hs). cbn [bind].
  unfold phi_inv. rewrite chunk2_0_tab. cbn [bind].
  rewrite chunk2_1_tab. cbn [bind]. rewrite stack_last_tab.
  apply f_equal. rewrite <- Hs. apply (tab_eq_tensor 0%float); [assumption|].
  rewrite Hs.
  intros [|i [|j [|a [|b [|k [|? ?]]]]]] Hidx; simpl in Hidx; try tauto.
  destruct Hidx as (Hi & Hj & Ha & Hb & Hk & _).
  cbn [last removelast upd_nth nth].
  assert (L1 : (i <? c1) = true) by (apply Nat.ltb_lt; lia).
  assert (L2 : (j <? c2) = true) by (apply Nat.ltb_lt; lia).
  assert (L4 : (c2 + j <? c2) = false) by (apply Nat.ltb_ge; lia).
  destruct k as [|[|k]]; [| |lia]; cbn [Nat.eqb]; rewrite ?L1, ?L2, ?L4;
    unfold fget; repeat f_equal; lia.
Qed.

Lemma phi_blocks_witness :
  exists D, phi (mkT [1; 1; 1; 1; 2] [3; 4]%float) = Ok D /\ shape D = [2; 2; 1; 1].
Proof.
  destruct (@phi_blocks (mkT [1; 1; 1; 1; 2] [3; 4]%float) 1 1 1 1 eq_refl)
    as (D & H1 & H2 & _).
  exists D. split; assumption.
Defined.

Lemma phi_inv_phi_witness :
  (D <- phi (mkT [1; 1; 1; 1; 2] [3; 4]%float) ;; phi_inv D)
  = Ok (mkT [1; 1; 1; 1; 2] [3; 4]%float).
Proof.
  exact (@phi_inv_phi (mkT [1; 1; 1; 1; 2] [3; 4]%float) 1 1 1 1 eq_refl eq_refl).
Defined.

(** [phi_inv_vec] undoes [phi_vec]: for every well-formed [v] of shape
    (n, c, h, w, 2), [phi_inv_vec(phi_vec(v))] is [v]. *)
Theorem phi_inv_vec_phi_vec (v : ftensor) (n c h w : nat) :
  wf v -> shape v = [n; c; h; w; 2] ->
  (u <- phi_vec v ;; phi_inv_vec u) = Ok v.
Proof.
  intros Hwf Hs. unfold phi_vec.
  rewrite (select_last_5 v Hs (k := 0)) by lia. cbn [bind].
  rewrite (select_last_5 v Hs (k := 1)) by lia. cbn [bind].
  rewrite cat_1_tab. cbn [bind].
  unfold phi_inv_vec. rewrite chunk2_1_tab. cbn [bind]. rewrite stack_last_tab.
  apply f_equal. rewrite <- Hs. apply (tab_eq_tensor 0%float); [assumption|].
  rewrite Hs.
  intros [|i [|j [|a [|b [|k [|? ?]]]]]] Hidx; simpl in Hidx; try tauto.
  destruct Hidx as (Hi & Hj & Ha & Hb & Hk & _).
  cbn [last removelast upd_nth nth].
  assert (L2 : (j <? c) = true) by (apply Nat.ltb_lt; lia).
  assert (L4 : (c + j <? c) = false) by (apply Nat.ltb_ge; lia).
  destruct k as [|[|k]]; [| |lia]; cbn [Nat.eqb]; rewrite ?L2, ?L4;
    rewrite fget_tab by (simpl; repeat split; auto; lia);
    cbn [upd_nth app]; unfold fget; repeat f_equal; lia.
Qed.

(** [phi_vec] undoes [phi_inv_vec] on an even number of channels: for every
    well-formed [u] of shape (n, 2c, h, w), [phi_vec(phi_inv_vec(u))] is
    [u]. *)
Theorem phi_vec_phi_inv_vec (u : ftensor) (n c h w : nat) :
  wf u -> shape u = [n; c + c; h; w] ->
  (v <- phi_inv_vec u ;; phi_vec v) = Ok u.
Proof.
  intros Hwf Hs. rewrite <- (tab_get 0%float Hwf) at 1. rewrite Hs.
  unfold phi_inv_vec. rewrite chunk2_1_tab. cbn [bind]. rewrite stack_last_tab.
  cbn [bind]. unfold phi_vec.
  rewrite (@select_last_5 _ n c h w 0) by (reflexivity || lia). cbn [bind].
  rewrite (@select_last_5 _ n c h w 1) by (reflexivity || lia). cbn [bind].
  rewrite cat_1_tab.
  apply f_equal. rewrite <- Hs. apply (tab_eq_tensor 0%float); [assumption|].
  rewrite Hs.
  intros [|i [|j [|a [|b [|? ?]]]]] Hidx; simpl in Hidx; try tauto.
  destruct Hidx as (Hi & Hj & Ha & Hb & _).
  cbn [nth upd_nth].
  destruct (j <? c) eqn:Ej; [apply Nat.ltb_lt in Ej | apply Nat.ltb_ge in Ej];
    rewrite fget_tab by (simpl; repeat split; auto; lia);
    cbn [app]; rewrite fget_tab by (simpl; repeat split; auto; lia);
    cbn [last removelast Nat.eqb upd_nth]; repeat f_equal; lia.
Qed.

(** An odd number of channels cannot be un-realified: with a single channel
    [chunk] gives one piece and the unpacking fails; with 2c+3 channels the
    two pieces differ in size and [stack] fails. *)
Theorem phi_inv_vec_odd_channels (u : ftensor) (n c h w : nat) :
  shape u = [n; c + c + 1; h; w] ->
  phi_inv_vec u =
  Raise (if Nat.eqb c 0
         then ValueError "not enough values to unpack (expected 2, got 1)"
         else RuntimeError "stack expects each tensor to be equal size").
Proof.
  intro Hs. unfold phi_inv_vec, chunk2. rewrite Hs. cbn [length nth].
  change (1 <? 4) with true. cbn [negb].
  destruct c as [|c]; [reflexivity|].
  destruct (Nat.eqb (S c + S c + 1) 1) eqn:E; [apply Nat.eqb_eq in E; lia|].
  cbn [bind Nat.eqb]. unfold stack_last, narrow. rewrite Hs. cbn [shape tab upd_nth].
  replace ((S c + S c + 1 + 1) / 2) with (S (S c))
    by (apply (Nat.div_unique _ 2 (S (S c)) 0); lia).
  replace (S c + S c + 1 - S (S c)) with (S c) by lia.
  destruct (shape_eqb [n; S (S c); h; w] [n; S c; h; w]) eqn:E2; [|reflexivity].
  apply shape_eqb_eq in E2. injection E2. lia.
Qed.

Lemma phi_inv_vec_phi_vec_witness :
  (u <- phi_vec (mkT [1; 1; 1; 1; 2] [3; 4]%float) ;; phi_inv_vec u)
  = Ok (mkT [1; 1; 1; 1; 2] [3; 4]%float).
Proof.
  exact (@phi_inv_vec_phi_vec (mkT [1; 1; 1; 1; 2] [3; 4]%float) 1 1 1 1 eq_refl eq_refl).
Defined.

Lemma phi_vec_phi_inv_vec_witness :
  (v <- phi_inv_vec (mkT [1; 2; 1; 1] [3; 4]%float) ;; phi_vec v)
  = Ok (mkT [1; 2; 1; 1] [3; 4]%float).
Proof.
  exact (@phi_vec_phi_inv_vec (mkT [1; 2; 1; 1] [3; 4]%float) 1 1 1 1 eq_refl eq_refl).
Defined.

Lemma phi_inv_vec_odd_channels_witness :
  phi_inv_vec image_4x4 =
  Raise (ValueError "not enough values to unpack (expected 2, got 1)").
Proof.
  exact (@phi_inv_vec_odd_channels image_4x4 1 0 4 4 eq_refl).
Defined.

(** ** iConv2d.inverse on inputs that are not square *)

Lemma bind_raise {T U : Type} (r : result T) (k : T -> result U) :
  (forall v, r = Ok v -> exists e, k v = Raise e) ->
  exists e, bind r k = Raise e.
Proof. destruct r as [v|e]; cbn [bind]; intro H; [now apply H | eauto]. Qed.

Lemma phi_vec_shape (v r : ftensor) (n c h w : nat) :
  shape v = [n; c; h; w; 2] -> phi_vec v = Ok r -> shape r = [n; c + c; h; w].
Proof.
  intros Hs. unfold phi_vec.
  rewrite (select_last_5 v Hs (k := 0)) by lia. cbn [bind].
  rewrite (select_last_5 v Hs (k := 1)) by lia. cbn [bind].
  rewrite cat_1_tab. intro H. injection H as <-. reflexivity.
Qed.

Lemma phi_shape (C r : ftensor) (c1 c2 h w : nat) :
  shape C = [c1; c2; h; w; 2] -> phi C = Ok r -> shape r = [c1 + c1; c2 + c2; h; w].
Proof. intros Hs. rewrite (phi_eq C Hs). intro H. injection H as <-. reflexivity. Qed.

Lemma pad2d_shape_3x3 (weight p : ftensor) (co ci : nat) (lo hi : Z) :
  shape weight = [co; ci; 3; 3] ->
  pad2d 0%float 0%float weight lo hi lo hi = Ok p ->
  shape p = [co; ci; Z.to_nat (3 + lo + hi); Z.to_nat (3 + lo + hi)].
Proof.
  intros Hs. unfold pad2d. rewrite Hs. cbn [length Nat.ltb Nat.leb Nat.sub nth upd_nth].
  destruct ((Z.of_nat 3 + lo + hi <? 0)%Z || (Z.of_nat 3 + lo + hi <? 0)%Z)%bool;
    [discriminate|].
  intro H. injection H as <-. reflexivity.
Qed.

Lemma negate_last_index_1_shape (t r : ftensor) :
  negate_last_index_1 t = Ok r -> shape r = shape t /\ 2 <= last (shape t) 0.
Proof.
  unfold negate_last_index_1.
  destruct (last (shape t) 0 <? 2) eqn:E; [discriminate|].
  apply Nat.ltb_ge in E. intro H. injection H as <-. split; [reflexivity | exact E].
Qed.

Lemma permute_shape_4 (t r : ftensor) (a b c d : nat) (perm : list nat) :
  shape t = [a; b; c; d] -> permute 0%float t perm = Ok r ->
  shape r = map (fun k => nth k [a; b; c; d] 0) perm.
Proof.
  intros Hs. unfold permute. rewrite Hs.
  destruct (is_permutation perm (length [a; b; c; d])); [|discriminate].
  intro H. injection H as <-. reflexivity.
Qed.

(** Batch dimensions (w, w) and (h, w) do not broadcast unless h is w or one
    of them is 1. *)
Lemma broadcast_shapes_not_square (h w : nat) :
  h <> w -> h <> 1 -> w <> 1 -> broadcast_shapes [w; w] [h; w] = None.
Proof.
  intros Hhw Hh Hw. unfold broadcast_shapes. cbn [rev app broadcast_rev].
  rewrite Nat.eqb_refl.
  destruct (Nat.eqb w h) eqn:E1; [apply Nat.eqb_eq in E1; lia|].
  destruct (Nat.eqb w 1) eqn:E2; [apply Nat.eqb_eq in E2; lia|].
  destruct (Nat.eqb h 1) eqn:E3; [apply Nat.eqb_eq in E3; lia|].
  reflexivity.
Qed.

Lemma matmul_not_square (a b : ftensor) (h w m n m' p : nat) :
  shape a = [w; w; n; m] -> shape b = [h; w; m'; p] ->
  h <> w -> h <> 1 -> w <> 1 ->
  exists e, matmul a b = Raise e.
Proof.
  intros Ha Hb Hhw Hh Hw. unfold matmul. rewrite Ha, Hb.
  cbn [length Nat.ltb Nat.leb orb Nat.sub nth firstn].
  destruct (negb (Nat.eqb m m')); [eauto|].
  rewrite broadcast_shapes_not_square by assumption. eauto.
Qed.

Section NotSquare.
Variables rfft irfft inverse : ftensor -> result ftensor.
(** [torch.rfft] adds a last dimension of size two; [torch.inverse] keeps
    the shape. *)
Hypothesis rfft_shape : forall t r, rfft t = Ok r -> shape r = (shape t ++ [2])%list.
Hypothesis inverse_shape : forall t r, inverse t = Ok r -> shape r = shape t.

(** [iConv2d.inverse] raises on every input whose height differs from its
    width (and is not 1), whatever the kernel and the entries: line 147 pads
    the kernel to w by w, so the matrices of line 150 come in w by w bins
    while the vectors of line 144 come in h by w bins, and the product of
    line 154 has no common batch shape. *)
Theorem iConv2d_inverse_not_square
        (self : iConv2d) (y : ftensor) (bs c h w co ci : nat) :
  shape y = [bs; c; h; w] ->
  shape (conv_bias self) = [c] ->
  shape (conv_weight self) = [co; ci; 3; 3] ->
  h <> w -> h <> 1 ->
  exists e, iConv2d_inverse rfft irfft inverse self y = Raise e.
Proof.
  intros Hy Hb Hw Hhw Hh1.
  unfold iConv2d_inverse. rewrite (sub_bias_eq y (conv_bias self) Hy Hb). cbn [bind].
  set (d := ftab _ _).
  assert (Hd : shape d = [bs; c; h; w]) by reflexivity.
  clearbody d.
  unfold inverse_fft_conv3x3_pytorch, size4. rewrite Hd. cbn [bind].
  apply bind_raise. intros ci0 Hci. exfalso. revert Hci.
  unfold conv_inverse_of, size4. rewrite Hd. cbn [bind].
  intro H.
  apply bind_ok in H. destruct H as (v & Hv & H).
  apply bind_ok in H. destruct H as (pw & Hpw & H).
  apply bind_ok in H. destruct H as (K & HK & H).
  apply bind_ok in H. destruct H as (Kinv & HKinv & H).
  (* the vectors *)
  unfold phi_fft_input_of in Hv.
  apply bind_ok in Hv. destruct Hv as (fi & Hfi & Hv).
  apply bind_ok in Hv. destruct Hv as (pv & Hpv & Hv).
  apply rfft_shape in Hfi. rewrite Hd in Hfi. cbn [app] in Hfi.
  apply (phi_vec_shape _ Hfi) in Hpv.
  apply (permute_shape_4 _ _ Hpv) in Hv. cbn [map nth] in Hv.
  (* the matrices *)
  unfold phi_fft_weight_of in Hpw.
  apply bind_ok in Hpw. destruct Hpw as (p1 & Hp1 & Hpw).
  apply bind_ok in Hpw. destruct Hpw as (p2 & Hp2 & Hpw).
  apply bind_ok in Hpw. destruct Hpw as (fw & Hfw & Hpw).
  apply (pad2d_shape_3x3 _ _ _ Hw) in Hp1.
  apply negate_last_index_1_shape in Hp2. destruct Hp2 as (Hp2 & Hlast).
  rewrite Hp1 in Hp2, Hlast. cbn [last] in Hlast.
  apply rfft_shape in Hfw. rewrite Hp2 in Hfw. cbn [app] in Hfw.
  apply (phi_shape _ Hfw) in Hpw.
  apply (permute_shape_4 _ _ Hpw) in HK. cbn [map nth] in HK.
  apply inverse_shape in HKinv. rewrite HK in HKinv.
  assert (Hwidth : Z.to_nat (3 + (Z.of_nat w - 3) / 2
                             + ((Z.of_nat w - 3) / 2 + (Z.of_nat w - 3) mod 2)) = w).
  { pose proof (Z.div_mod (Z.of_nat w - 3) 2). lia. }
  rewrite Hwidth in HKinv, Hlast.
  unfold conv_inverse_from in H.
  destruct (@matmul_not_square Kinv v h w _ _ _ _ HKinv Hv) as (e & He); try lia.
  rewrite He in H. discriminate.
Qed.
End NotSquare.

Lemma reference_rfft_shape (t r : ftensor) :
  reference.rfft t = Ok r -> shape r = (shape t ++ [2])%list.
Proof.
  unfold reference.rfft.
  destruct (length (shape t) <? 2); [discriminate|].
  destruct (negb _); [discriminate|].
  intro H. injection H as <-. reflexivity.
Qed.

Lemma reference_inverse_shape (t r : ftensor) :
  reference.inverse t = Ok r -> shape r = shape t.
Proof.
  unfold reference.inverse.
  destruct (length (shape t) <? 2); [discriminate|].
  destruct (negb _); [discriminate|].
  destruct (reference.sequence_opt _); [|discriminate].
  intro H. injection H as <-. reflexivity.
Qed.

Lemma iConv2d_inverse_not_square_witness :
  exists e,
    iConv2d_inverse reference.rfft reference.irfft reference.inverse side_layer image_2x4
    = Raise e.
Proof.
  apply (@iConv2d_inverse_not_square reference.rfft reference.irfft reference.inverse
           reference_rfft_shape reference_inverse_shape side_layer image_2x4 1 1 2 4 1 1);
    try reflexivity; lia.
Defined.

(** ** iConv1x1: the shapes of forward and inverse *)

Lemma conv2d_1x1_shape (x wt : ftensor) (b : option ftensor) (bs c h w : nat) :
  shape x = [bs; c; h; w] -> shape wt = [c; c; 1; 1] ->
  match b with Some bv => shape bv = [c] | None => True end ->
  0 < h -> 0 < w ->
  exists y, conv2d x wt b = Ok y /\ shape y = [bs; c; h; w].
Proof.
  intros Hx Hw Hb Hh Hwd. unfold conv2d. rewrite Hx, Hw. rewrite Nat.eqb_refl. cbn [negb].
  assert (E : match b with Some b0 => shape_eqb (shape b0) [c] | None => true end = true).
  { destruct b as [bv|]; [rewrite Hb; apply shape_eqb_refl | reflexivity]. }
  rewrite E. cbn [negb].
  destruct (h <? 1) eqn:E1; [apply Nat.ltb_lt in E1; lia|].
  destruct (w <? 1) eqn:E2; [apply Nat.ltb_lt in E2; lia|].
  cbn [orb]. eexists. split; [reflexivity|]. cbn [shape ftab tab].
  repeat f_equal; lia.
Qed.

Section Conv1x1Shapes.
Variable inverse : ftensor -> result ftensor.
Hypothesis inverse_shape : forall t r, inverse t = Ok r -> shape r = shape t.

(** For a layer [iConv1x1(c)] and an input of shape (bs, c, h, w) with all
    four sizes positive, [forward] returns a tensor of the shape of its
    input, and [inverse] applied to it returns a tensor of that shape again
    when [torch.inverse] inverts the weight matrix [weight[:,:,0,0]], and
    raises the error of [torch.inverse] otherwise. *)
Theorem iConv1x1_inverse_forward_shape
        (self : iConv1x1) (x : ftensor) (bs c h w : nat) :
  shape x = [bs; c; h; w] ->
  shape (weight self) = [c; c; 1; 1] ->
  shape (bias self) = [c] ->
  0 < bs -> 0 < c -> 0 < h -> 0 < w ->
  let self' := fst (iConv1x1_forward self x) in
  let m := ftab [c; c] (fun idx => fget (weight self) (idx ++ [0; 0])%list) in
  exists y,
    snd (iConv1x1_forward self x) = Ok y /\
    shape y = [bs; c; h; w] /\
    match inverse m with
    | Ok _ => exists x', iConv1x1_inverse inverse self' y = Ok x' /\
                         shape x' = [bs; c; h; w]
    | Raise e => iConv1x1_inverse inverse self' y = Raise e
    end.
Proof.
  intros Hx Hw Hb _ _ Hh Hwd self' m.
  destruct (@conv2d_1x1_shape x (weight self) (Some (bias self)) bs c h w Hx Hw Hb Hh Hwd)
    as (y & Hy & Hys).
  exists y. split; [exact Hy|]. split; [exact Hys|].
  unfold iConv1x1_inverse, self'. cbn [iConv1x1_forward fst _input_shape weight bias].
  rewrite Hx. cbn [unpack_shape bind].
  unfold index_colon_colon_0_0. rewrite Hw. cbn [Nat.eqb orb bind]. fold m.
  destruct (inverse m) as [mi|e] eqn:Hmi; cbn [bind]; [|reflexivity].
  apply inverse_shape in Hmi. cbn [m shape ftab tab] in Hmi.
  unfold view. rewrite Hmi.
  assert (Hex : existsb (fun s => (s <? -1)%Z)
                  [Z.of_nat c; Z.of_nat c; 1%Z; 1%Z] = false).
  { cbn [existsb]. rewrite !orb_false_r. apply orb_false_iff.
    split; apply Z.ltb_ge; lia. }
  rewrite Hex.
  assert (Hcount : count_occ Z.eq_dec [Z.of_nat c; Z.of_nat c; 1%Z; 1%Z] (-1)%Z = 0).
  { cbn [count_occ]. destruct (Z.eq_dec (Z.of_nat c) (-1)); [lia|].
    destruct (Z.eq_dec 1 (-1)); [lia | reflexivity]. }
  rewrite Hcount.
  cbn [map]. rewrite Nat2Z.id.
  assert (Hn : Nat.eqb (numel [c; c; Z.to_nat 1; Z.to_nat 1]) (numel [c; c]) = true).
  { apply Nat.eqb_eq. cbn [numel fold_right Z.to_nat Pos.to_nat Pos.iter_op]. lia. }
  rewrite Hn. cbn [bind].
  rewrite (sub_bias_eq y (bias self) Hys Hb). cbn [bind].
  apply conv2d_1x1_shape; auto.
Qed.
End Conv1x1Shapes.

Lemma iConv1x1_inverse_forward_shape_witness :
  exists y,
    snd (iConv1x1_forward doubling_conv1x1 batch_3x1x2x5) = Ok y /\
    shape y = [3; 1; 2; 5] /\
    exists x', iConv1x1_inverse reference.inverse
                 (fst (iConv1x1_forward doubling_conv1x1 batch_3x1x2x5)) y = Ok x' /\
               shape x' = [3; 1; 2; 5].
Proof.
  exact (@iConv1x1_inverse_forward_shape reference.inverse reference_inverse_shape
           doubling_conv1x1 batch_3x1x2x5 3 1 2 5 eq_refl eq_refl eq_refl
           (Nat.lt_0_succ 2) (Nat.lt_0_succ 0) (Nat.lt_0_succ 1) (Nat.lt_0_succ 4)).
Defined.

(** ** The training script: the pieces around the loss *)







(** The relabeling loop, in one pass. *)
Lemma hide_classes_eq (NO_LABEL : Z) (classes : list nat) (labels : list Z) :
  hide_classes NO_LABEL classes labels =
  map (fun l => if existsb (fun c => (l =? Z.of_nat c)%Z) classes then NO_LABEL else l)
      labels.
Proof.
  unfold hide_classes. revert labels.
  induction classes as [|c cs IH]; intro labels; cbn [fold_left existsb].
  - now rewrite map_id.
  - rewrite IH. unfold assign_where. rewrite map_map. apply map_ext. intro l.
    destruct (l =? Z.of_nat c)%Z; cbn [orb]; [|reflexivity].
    destruct (existsb _ cs); reflexivity.
Qed.

(** After the relabeling loop a label is [NO_LABEL] if its class is one of
    [unlabeled_classes] and unchanged otherwise, and the mask of [train]
    selects exactly the samples whose original label is neither [NO_LABEL]
    nor one of these classes, whatever the value of [NO_LABEL] is. *)
Theorem labeled_mask_hide_classes (NO_LABEL : Z) (classes : list nat) (labels : list Z) :
  hide_classes NO_LABEL classes labels =
  map (fun l => if existsb (fun c => (l =? Z.of_nat c)%Z) classes then NO_LABEL else l)
      labels /\
  labeled_mask NO_LABEL (hide_classes NO_LABEL classes labels) =
  map (fun l => negb (l =? NO_LABEL)%Z
                && negb (existsb (fun c => (l =? Z.of_nat c)%Z) classes))
      labels.
Proof.
  split; [apply hide_classes_eq|].
  rewrite hide_classes_eq. unfold labeled_mask. rewrite map_map. apply map_ext. intro l.
  destruct (existsb _ classes); [rewrite Z.eqb_refl, andb_false_r | rewrite andb_true_r];
    reflexivity.
Qed.

Section ScriptFacts.
Variable rest : Args -> DatasetConfig -> list event * result unit.

End ScriptFacts.
